(** * Disk-head scheduling policies

    A shallow embedding of [backend/app/algorithms/disk_scheduling.py]
    (class [DiskScheduler]) and the properties its specification states
    about it.

    Python integers are unbounded, so tracks, positions and distances are
    [Z].  Lists are Python lists of integers.  A raised [ValueError] is a
    value of type [error]; a method that may raise returns a [result]. *)

From Stdlib Require Import String Ascii.
From Stdlib Require Import ZArith List Bool Lia Permutation Sorted.
From Stdlib Require Import Orders Mergesort.
From Equations Require Import Equations.
Import ListNotations.

Local Open Scope Z_scope.

(** ** Exceptions *)

(** The two failures the source raises itself are [ValueError]s, told
    apart by their message.  [OutOfBounds req low high] stands for
    "Request {req} is out of bounds (0-{disk_size-1})" and
    [UnknownAlgorithm name] for "Unknown algorithm: {algorithm}".  The
    other two are raised by the division [total_seek_time / len(sequence)]:
    "division by zero" and "integer division result too large for a
    float". *)
Inductive error : Type :=
| OutOfBounds (req low high : Z)
| UnknownAlgorithm (name : string)
| ZeroDivisionError
| OverflowError.

Inductive result (A : Type) : Type :=
| Ok (a : A)
| Raise (e : error).

Arguments Ok {A} a.
Arguments Raise {A} e.

Definition bind {A B : Type} (m : result A) (k : A -> result B) : result B :=
  match m with
  | Ok a => k a
  | Raise e => Raise e
  end.

Notation "x <- m ;; k" := (bind m (fun x => k))
  (at level 61, m at next level, right associativity).

(** ** The Python built-ins the module calls *)

Module Py.

(** [sorted(l)] and [sorted(l, reverse=True)] on lists of integers: a merge
    sort for the order [<=], respectively [>=]. *)
Module Ascending <: TotalLeBool.
Definition t := Z.
Definition leb (x y : Z) : bool := x <=? y.
Lemma ascending_total : forall x y, leb x y = true \/ leb y x = true.
Proof. intros x y; unfold leb; rewrite !Z.leb_le; lia. Qed.
Definition leb_total := ascending_total.
End Ascending.

Module Descending <: TotalLeBool.
Definition t := Z.
Definition leb (x y : Z) : bool := y <=? x.
Lemma descending_total : forall x y, leb x y = true \/ leb y x = true.
Proof. intros x y; unfold leb; rewrite !Z.leb_le; lia. Qed.
Definition leb_total := descending_total.
End Descending.

Module AscendingSort := Sort Ascending.
Module DescendingSort := Sort Descending.

Definition sorted (l : list Z) : list Z := AscendingSort.sort l.
Definition sorted_reverse (l : list Z) : list Z := DescendingSort.sort l.

(** [min(l, key=key)] scans [l] from the left and keeps the item seen first
    among those whose key is smallest: the candidate is replaced only by an
    item with a strictly smaller key.  [min_scan key best l] is that scan
    once a first candidate [best] is known. *)
Fixpoint min_scan (key : Z -> Z) (best : Z) (l : list Z) : Z :=
  match l with
  | [] => best
  | x :: rest =>
      if key x <? key best then min_scan key x rest
      else min_scan key best rest
  end.

(** [l.remove(x)]: drops the first item equal to [x].  (Python raises when
    there is none; the only caller removes an item it has just found.) *)
Fixpoint remove (x : Z) (l : list Z) : list Z :=
  match l with
  | [] => []
  | y :: rest => if y =? x then rest else y :: remove x rest
  end.

(** The item [min] returns is one of the items scanned, so removing it
    shortens the list: this is what ends the loop of [sstf]. *)
Lemma min_scan_In (key : Z -> Z) (l : list Z) (best : Z) :
  In (min_scan key best l) (best :: l).
Proof.
  revert best; induction l as [|x rest IH]; intros best; simpl.
  - now left.
  - destruct (key x <? key best).
    + right. apply IH.
    + destruct (IH best) as [H|H]; [now left | now right; right].
Qed.

Lemma remove_length (x : Z) (l : list Z) :
  In x l -> S (length (remove x l)) = length l.
Proof.
  induction l as [|y rest IH]; simpl; [tauto|].
  intros [->|H].
  - now rewrite Z.eqb_refl.
  - destruct (y =? x); [reflexivity|]. simpl. now rewrite IH.
Qed.

(** Upper and lower case on ASCII text, where each byte is a character.
    [lower] is [s.lower()] as far as the comparison with "right" needs it:
    the ASCII capitals are lowered and every other byte is kept.
    [upper_ascii] is what [s.upper()], defined below for any string, does on
    ASCII text. *)
Definition is_lower (c : ascii) : bool := (("a" <=? c) && (c <=? "z"))%char.
Definition is_upper (c : ascii) : bool := (("A" <=? c) && (c <=? "Z"))%char.

Definition upper_char (c : ascii) : ascii :=
  if is_lower c then ascii_of_N (N_of_ascii c - 32) else c.
Definition lower_char (c : ascii) : ascii :=
  if is_upper c then ascii_of_N (N_of_ascii c + 32) else c.

Fixpoint upper_ascii (s : string) : string :=
  match s with
  | EmptyString => EmptyString
  | String c rest => String (upper_char c) (upper_ascii rest)
  end.

Fixpoint lower (s : string) : string :=
  match s with
  | EmptyString => EmptyString
  | String c rest => String (lower_char c) (lower rest)
  end.

(** ** [str.upper] on any string

    A [str] is held as its UTF-8 bytes.  [decode] reads the code points; a
    byte that is not part of a well-formed sequence is kept as the code
    point 0xDC00 + byte (the "surrogateescape" convention), which [encode]
    writes back as that byte. *)
Definition is_continuation (n : N) : bool := ((128 <=? n) && (n <? 192))%N.

Fixpoint decode (s : string) : list N :=
  match s with
  | EmptyString => []
  | String b1 r1 =>
      let n1 := N_of_ascii b1 in
      let escaped := (56320 + n1)%N :: decode r1 in
      if (n1 <? 128)%N then n1 :: decode r1
      else
        match r1 with
        | EmptyString => escaped
        | String b2 r2 =>
            let n2 := N_of_ascii b2 in
            if negb (is_continuation n2) then escaped
            else if ((194 <=? n1) && (n1 <? 224))%N
            then ((n1 - 192) * 64 + (n2 - 128))%N :: decode r2
            else
              match r2 with
              | EmptyString => escaped
              | String b3 r3 =>
                  let n3 := N_of_ascii b3 in
                  if negb (is_continuation n3) then escaped
                  else if ((224 <=? n1) && (n1 <? 240))%N
                  then
                    let cp := ((n1 - 224) * 4096 + (n2 - 128) * 64
                               + (n3 - 128))%N in
                    if ((2048 <=? cp)
                        && negb ((55296 <=? cp) && (cp <? 57344)))%N
                    then cp :: decode r3 else escaped
                  else
                    match r3 with
                    | EmptyString => escaped
                    | String b4 r4 =>
                        let n4 := N_of_ascii b4 in
                        if negb (is_continuation n4) then escaped
                        else if ((240 <=? n1) && (n1 <? 245))%N
                        then
                          let cp := ((n1 - 240) * 262144 + (n2 - 128) * 4096
                                     + (n3 - 128) * 64 + (n4 - 128))%N in
                          if ((65536 <=? cp) && (cp <? 1114112))%N
                          then cp :: decode r4 else escaped
                        else escaped
                    end
              end
        end
  end.

(** The string made of the given bytes. *)
Definition bytes (l : list N) : string :=
  string_of_list_ascii (map ascii_of_N l).

Definition encode_point (cp : N) : string :=
  (if cp <? 128 then bytes [cp]
   else if cp <? 2048 then bytes [192 + cp / 64; 128 + cp mod 64]
   else if (56448 <=? cp) && (cp <? 56576) then bytes [cp - 56320]
   else if cp <? 65536
   then bytes [224 + cp / 4096; 128 + (cp / 64) mod 64; 128 + cp mod 64]
   else bytes [240 + cp / 262144; 128 + (cp / 4096) mod 64;
               128 + (cp / 64) mod 64; 128 + cp mod 64])%N.

Fixpoint encode (l : list N) : string :=
  match l with
  | [] => EmptyString
  | cp :: rest => (encode_point cp ++ encode rest)%string
  end.

(** The upper-case expansion of every code point above 127 that
    [str.upper] changes (Unicode 14.0, full case mapping). *)
Definition upper_table : list (N * list N) :=
 (  [(181, [924]); (223, [83; 83]); (224, [192]); (225, [193]); (226, [194]); (227, [195]); (228, [196]); (229, [197]);
   (230, [198]); (231, [199]); (232, [200]); (233, [201]); (234, [202]); (235, [203]); (236, [204]); (237, [205]);
   (238, [206]); (239, [207]); (240, [208]); (241, [209]); (242, [210]); (243, [211]); (244, [212]); (245, [213]);
   (246, [214]); (248, [216]); (249, [217]); (250, [218]); (251, [219]); (252, [220]); (253, [221]); (254, [222]);
   (255, [376]); (257, [256]); (259, [258]); (261, [260]); (263, [262]); (265, [264]); (267, [266]); (269, [268]);
   (271, [270]); (273, [272]); (275, [274]); (277, [276]); (279, [278]); (281, [280]); (283, [282]); (285, [284]);
   (287, [286]); (289, [288]); (291, [290]); (293, [292]); (295, [294]); (297, [296]); (299, [298]); (301, [300]);
   (303, [302]); (305, [73]); (307, [306]); (309, [308]); (311, [310]); (314, [313]); (316, [315]); (318, [317]);
   (320, [319]); (322, [321]); (324, [323]); (326, [325]); (328, [327]); (329, [700; 78]); (331, [330]); (333, [332]);
   (335, [334]); (337, [336]); (339, [338]); (341, [340]); (343, [342]); (345, [344]); (347, [346]); (349, [348]);
   (351, [350]); (353, [352]); (355, [354]); (357, [356]); (359, [358]); (361, [360]); (363, [362]); (365, [364]);
   (367, [366]); (369, [368]); (371, [370]); (373, [372]); (375, [374]); (378, [377]); (380, [379]); (382, [381]);
   (383, [83]); (384, [579]); (387, [386]); (389, [388]); (392, [391]); (396, [395]); (402, [401]); (405, [502]);
   (409, [408]); (410, [573]); (414, [544]); (417, [416]); (419, [418]); (421, [420]); (424, [423]); (429, [428]);
   (432, [431]); (436, [435]); (438, [437]); (441, [440]); (445, [444]); (447, [503]); (453, [452]); (454, [452]);
   (456, [455]); (457, [455]); (459, [458]); (460, [458]); (462, [461]); (464, [463]); (466, [465]); (468, [467]);
   (470, [469]); (472, [471]); (474, [473]); (476, [475]); (477, [398]); (479, [478]); (481, [480]); (483, [482]);
   (485, [484]); (487, [486]); (489, [488]); (491, [490]); (493, [492]); (495, [494]); (496, [74; 780]); (498, [497]);
   (499, [497]); (501, [500]); (505, [504]); (507, [506]); (509, [508]); (511, [510]); (513, [512]); (515, [514]);
   (517, [516]); (519, [518]); (521, [520]); (523, [522]); (525, [524]); (527, [526]); (529, [528]); (531, [530]);
   (533, [532]); (535, [534]); (537, [536]); (539, [538]); (541, [540]); (543, [542]); (547, [546]); (549, [548]);
   (551, [550]); (553, [552]); (555, [554]); (557, [556]); (559, [558]); (561, [560]); (563, [562]); (572, [571]);
   (575, [11390]); (576, [11391]); (578, [577]); (583, [582]); (585, [584]); (587, [586]); (589, [588]); (591, [590]);
   (592, [11375]); (593, [11373]); (594, [11376]); (595, [385]); (596, [390]); (598, [393]); (599, [394]); (601, [399]);
   (603, [400]); (604, [42923]); (608, [403]); (609, [42924]); (611, [404]); (613, [42893]); (614, [42922]); (616, [407])]
  ++
  [(617, [406]); (618, [42926]); (619, [11362]); (620, [42925]); (623, [412]); (625, [11374]); (626, [413]); (629, [415]);
   (637, [11364]); (640, [422]); (642, [42949]); (643, [425]); (647, [42929]); (648, [430]); (649, [580]); (650, [433]);
   (651, [434]); (652, [581]); (658, [439]); (669, [42930]); (670, [42928]); (837, [921]); (881, [880]); (883, [882]);
   (887, [886]); (891, [1021]); (892, [1022]); (893, [1023]); (912, [921; 776; 769]); (940, [902]); (941, [904]); (942, [905]);
   (943, [906]); (944, [933; 776; 769]); (945, [913]); (946, [914]); (947, [915]); (948, [916]); (949, [917]); (950, [918]);
   (951, [919]); (952, [920]); (953, [921]); (954, [922]); (955, [923]); (956, [924]); (957, [925]); (958, [926]);
   (959, [927]); (960, [928]); (961, [929]); (962, [931]); (963, [931]); (964, [932]); (965, [933]); (966, [934]);
   (967, [935]); (968, [936]); (969, [937]); (970, [938]); (971, [939]); (972, [908]); (973, [910]); (974, [911]);
   (976, [914]); (977, [920]); (981, [934]); (982, [928]); (983, [975]); (985, [984]); (987, [986]); (989, [988]);
   (991, [990]); (993, [992]); (995, [994]); (997, [996]); (999, [998]); (1001, [1000]); (1003, [1002]); (1005, [1004]);
   (1007, [1006]); (1008, [922]); (1009, [929]); (1010, [1017]); (1011, [895]); (1013, [917]); (1016, [1015]); (1019, [1018]);
   (1072, [1040]); (1073, [1041]); (1074, [1042]); (1075, [1043]); (1076, [1044]); (1077, [1045]); (1078, [1046]); (1079, [1047]);
   (1080, [1048]); (1081, [1049]); (1082, [1050]); (1083, [1051]); (1084, [1052]); (1085, [1053]); (1086, [1054]); (1087, [1055]);
   (1088, [1056]); (1089, [1057]); (1090, [1058]); (1091, [1059]); (1092, [1060]); (1093, [1061]); (1094, [1062]); (1095, [1063]);
   (1096, [1064]); (1097, [1065]); (1098, [1066]); (1099, [1067]); (1100, [1068]); (1101, [1069]); (1102, [1070]); (1103, [1071]);
   (1104, [1024]); (1105, [1025]); (1106, [1026]); (1107, [1027]); (1108, [1028]); (1109, [1029]); (1110, [1030]); (1111, [1031]);
   (1112, [1032]); (1113, [1033]); (1114, [1034]); (1115, [1035]); (1116, [1036]); (1117, [1037]); (1118, [1038]); (1119, [1039]);
   (1121, [1120]); (1123, [1122]); (1125, [1124]); (1127, [1126]); (1129, [1128]); (1131, [1130]); (1133, [1132]); (1135, [1134]);
   (1137, [1136]); (1139, [1138]); (1141, [1140]); (1143, [1142]); (1145, [1144]); (1147, [1146]); (1149, [1148]); (1151, [1150]);
   (1153, [1152]); (1163, [1162]); (1165, [1164]); (1167, [1166]); (1169, [1168]); (1171, [1170]); (1173, [1172]); (1175, [1174]);
   (1177, [1176]); (1179, [1178]); (1181, [1180]); (1183, [1182]); (1185, [1184]); (1187, [1186]); (1189, [1188]); (1191, [1190]);
   (1193, [1192]); (1195, [1194]); (1197, [1196]); (1199, [1198]); (1201, [1200]); (1203, [1202]); (1205, [1204]); (1207, [1206]);
   (1209, [1208]); (1211, [1210]); (1213, [1212]); (1215, [1214]); (1218, [1217]); (1220, [1219]); (1222, [1221]); (1224, [1223]);
   (1226, [1225]); (1228, [1227]); (1230, [1229]); (1231, [1216]); (1233, [1232]); (1235, [1234]); (1237, [1236]); (1239, [1238]);
   (1241, [1240]); (1243, [1242]); (1245, [1244]); (1247, [1246]); (1249, [1248]); (1251, [1250]); (1253, [1252]); (1255, [1254])]
  ++
  [(1257, [1256]); (1259, [1258]); (1261, [1260]); (1263, [1262]); (1265, [1264]); (1267, [1266]); (1269, [1268]); (1271, [1270]);
   (1273, [1272]); (1275, [1274]); (1277, [1276]); (1279, [1278]); (1281, [1280]); (1283, [1282]); (1285, [1284]); (1287, [1286]);
   (1289, [1288]); (1291, [1290]); (1293, [1292]); (1295, [1294]); (1297, [1296]); (1299, [1298]); (1301, [1300]); (1303, [1302]);
   (1305, [1304]); (1307, [1306]); (1309, [1308]); (1311, [1310]); (1313, [1312]); (1315, [1314]); (1317, [1316]); (1319, [1318]);
   (1321, [1320]); (1323, [1322]); (1325, [1324]); (1327, [1326]); (1377, [1329]); (1378, [1330]); (1379, [1331]); (1380, [1332]);
   (1381, [1333]); (1382, [1334]); (1383, [1335]); (1384, [1336]); (1385, [1337]); (1386, [1338]); (1387, [1339]); (1388, [1340]);
   (1389, [1341]); (1390, [1342]); (1391, [1343]); (1392, [1344]); (1393, [1345]); (1394, [1346]); (1395, [1347]); (1396, [1348]);
   (1397, [1349]); (1398, [1350]); (1399, [1351]); (1400, [1352]); (1401, [1353]); (1402, [1354]); (1403, [1355]); (1404, [1356]);
   (1405, [1357]); (1406, [1358]); (1407, [1359]); (1408, [1360]); (1409, [1361]); (1410, [1362]); (1411, [1363]); (1412, [1364]);
   (1413, [1365]); (1414, [1366]); (1415, [1333; 1362]); (4304, [7312]); (4305, [7313]); (4306, [7314]); (4307, [7315]); (4308, [7316]);
   (4309, [7317]); (4310, [7318]); (4311, [7319]); (4312, [7320]); (4313, [7321]); (4314, [7322]); (4315, [7323]); (4316, [7324]);
   (4317, [7325]); (4318, [7326]); (4319, [7327]); (4320, [7328]); (4321, [7329]); (4322, [7330]); (4323, [7331]); (4324, [7332]);
   (4325, [7333]); (4326, [7334]); (4327, [7335]); (4328, [7336]); (4329, [7337]); (4330, [7338]); (4331, [7339]); (4332, [7340]);
   (4333, [7341]); (4334, [7342]); (4335, [7343]); (4336, [7344]); (4337, [7345]); (4338, [7346]); (4339, [7347]); (4340, [7348]);
   (4341, [7349]); (4342, [7350]); (4343, [7351]); (4344, [7352]); (4345, [7353]); (4346, [7354]); (4349, [7357]); (4350, [7358]);
   (4351, [7359]); (5112, [5104]); (5113, [5105]); (5114, [5106]); (5115, [5107]); (5116, [5108]); (5117, [5109]); (7296, [1042]);
   (7297, [1044]); (7298, [1054]); (7299, [1057]); (7300, [1058]); (7301, [1058]); (7302, [1066]); (7303, [1122]); (7304, [42570]);
   (7545, [42877]); (7549, [11363]); (7566, [42950]); (7681, [7680]); (7683, [7682]); (7685, [7684]); (7687, [7686]); (7689, [7688]);
   (7691, [7690]); (7693, [7692]); (7695, [7694]); (7697, [7696]); (7699, [7698]); (7701, [7700]); (7703, [7702]); (7705, [7704]);
   (7707, [7706]); (7709, [7708]); (7711, [7710]); (7713, [7712]); (7715, [7714]); (7717, [7716]); (7719, [7718]); (7721, [7720]);
   (7723, [7722]); (7725, [7724]); (7727, [7726]); (7729, [7728]); (7731, [7730]); (7733, [7732]); (7735, [7734]); (7737, [7736]);
   (7739, [7738]); (7741, [7740]); (7743, [7742]); (7745, [7744]); (7747, [7746]); (7749, [7748]); (7751, [7750]); (7753, [7752]);
   (7755, [7754]); (7757, [7756]); (7759, [7758]); (7761, [7760]); (7763, [7762]); (7765, [7764]); (7767, [7766]); (7769, [7768]);
   (7771, [7770]); (7773, [7772]); (7775, [7774]); (7777, [7776]); (7779, [7778]); (7781, [7780]); (7783, [7782]); (7785, [7784]);
   (7787, [7786]); (7789, [7788]); (7791, [7790]); (7793, [7792]); (7795, [7794]); (7797, [7796]); (7799, [7798]); (7801, [7800])]
  ++
  [(7803, [7802]); (7805, [7804]); (7807, [7806]); (7809, [7808]); (7811, [7810]); (7813, [7812]); (7815, [7814]); (7817, [7816]);
   (7819, [7818]); (7821, [7820]); (7823, [7822]); (7825, [7824]); (7827, [7826]); (7829, [7828]); (7830, [72; 817]); (7831, [84; 776]);
   (7832, [87; 778]); (7833, [89; 778]); (7834, [65; 702]); (7835, [7776]); (7841, [7840]); (7843, [7842]); (7845, [7844]); (7847, [7846]);
   (7849, [7848]); (7851, [7850]); (7853, [7852]); (7855, [7854]); (7857, [7856]); (7859, [7858]); (7861, [7860]); (7863, [7862]);
   (7865, [7864]); (7867, [7866]); (7869, [7868]); (7871, [7870]); (7873, [7872]); (7875, [7874]); (7877, [7876]); (7879, [7878]);
   (7881, [7880]); (7883, [7882]); (7885, [7884]); (7887, [7886]); (7889, [7888]); (7891, [7890]); (7893, [7892]); (7895, [7894]);
   (7897, [7896]); (7899, [7898]); (7901, [7900]); (7903, [7902]); (7905, [7904]); (7907, [7906]); (7909, [7908]); (7911, [7910]);
   (7913, [7912]); (7915, [7914]); (7917, [7916]); (7919, [7918]); (7921, [7920]); (7923, [7922]); (7925, [7924]); (7927, [7926]);
   (7929, [7928]); (7931, [7930]); (7933, [7932]); (7935, [7934]); (7936, [7944]); (7937, [7945]); (7938, [7946]); (7939, [7947]);
   (7940, [7948]); (7941, [7949]); (7942, [7950]); (7943, [7951]); (7952, [7960]); (7953, [7961]); (7954, [7962]); (7955, [7963]);
   (7956, [7964]); (7957, [7965]); (7968, [7976]); (7969, [7977]); (7970, [7978]); (7971, [7979]); (7972, [7980]); (7973, [7981]);
   (7974, [7982]); (7975, [7983]); (7984, [7992]); (7985, [7993]); (7986, [7994]); (7987, [7995]); (7988, [7996]); (7989, [7997]);
   (7990, [7998]); (7991, [7999]); (8000, [8008]); (8001, [8009]); (8002, [8010]); (8003, [8011]); (8004, [8012]); (8005, [8013]);
   (8016, [933; 787]); (8017, [8025]); (8018, [933; 787; 768]); (8019, [8027]); (8020, [933; 787; 769]); (8021, [8029]); (8022, [933; 787; 834]); (8023, [8031]);
   (8032, [8040]); (8033, [8041]); (8034, [8042]); (8035, [8043]); (8036, [8044]); (8037, [8045]); (8038, [8046]); (8039, [8047]);
   (8048, [8122]); (8049, [8123]); (8050, [8136]); (8051, [8137]); (8052, [8138]); (8053, [8139]); (8054, [8154]); (8055, [8155]);
   (8056, [8184]); (8057, [8185]); (8058, [8170]); (8059, [8171]); (8060, [8186]); (8061, [8187]); (8064, [7944; 921]); (8065, [7945; 921]);
   (8066, [7946; 921]); (8067, [7947; 921]); (8068, [7948; 921]); (8069, [7949; 921]); (8070, [7950; 921]); (8071, [7951; 921]); (8072, [7944; 921]); (8073, [7945; 921]);
   (8074, [7946; 921]); (8075, [7947; 921]); (8076, [7948; 921]); (8077, [7949; 921]); (8078, [7950; 921]); (8079, [7951; 921]); (8080, [7976; 921]); (8081, [7977; 921]);
   (8082, [7978; 921]); (8083, [7979; 921]); (8084, [7980; 921]); (8085, [7981; 921]); (8086, [7982; 921]); (8087, [7983; 921]); (8088, [7976; 921]); (8089, [7977; 921]);
   (8090, [7978; 921]); (8091, [7979; 921]); (8092, [7980; 921]); (8093, [7981; 921]); (8094, [7982; 921]); (8095, [7983; 921]); (8096, [8040; 921]); (8097, [8041; 921]);
   (8098, [8042; 921]); (8099, [8043; 921]); (8100, [8044; 921]); (8101, [8045; 921]); (8102, [8046; 921]); (8103, [8047; 921]); (8104, [8040; 921]); (8105, [8041; 921]);
   (8106, [8042; 921]); (8107, [8043; 921]); (8108, [8044; 921]); (8109, [8045; 921]); (8110, [8046; 921]); (8111, [8047; 921]); (8112, [8120]); (8113, [8121]);
   (8114, [8122; 921]); (8115, [913; 921]); (8116, [902; 921]); (8118, [913; 834]); (8119, [913; 834; 921]); (8124, [913; 921]); (8126, [921]); (8130, [8138; 921]);
   (8131, [919; 921]); (8132, [905; 921]); (8134, [919; 834]); (8135, [919; 834; 921]); (8140, [919; 921]); (8144, [8152]); (8145, [8153]); (8146, [921; 776; 768])]
  ++
  [(8147, [921; 776; 769]); (8150, [921; 834]); (8151, [921; 776; 834]); (8160, [8168]); (8161, [8169]); (8162, [933; 776; 768]); (8163, [933; 776; 769]); (8164, [929; 787]);
   (8165, [8172]); (8166, [933; 834]); (8167, [933; 776; 834]); (8178, [8186; 921]); (8179, [937; 921]); (8180, [911; 921]); (8182, [937; 834]); (8183, [937; 834; 921]);
   (8188, [937; 921]); (8526, [8498]); (8560, [8544]); (8561, [8545]); (8562, [8546]); (8563, [8547]); (8564, [8548]); (8565, [8549]);
   (8566, [8550]); (8567, [8551]); (8568, [8552]); (8569, [8553]); (8570, [8554]); (8571, [8555]); (8572, [8556]); (8573, [8557]);
   (8574, [8558]); (8575, [8559]); (8580, [8579]); (9424, [9398]); (9425, [9399]); (9426, [9400]); (9427, [9401]); (9428, [9402]);
   (9429, [9403]); (9430, [9404]); (9431, [9405]); (9432, [9406]); (9433, [9407]); (9434, [9408]); (9435, [9409]); (9436, [9410]);
   (9437, [9411]); (9438, [9412]); (9439, [9413]); (9440, [9414]); (9441, [9415]); (9442, [9416]); (9443, [9417]); (9444, [9418]);
   (9445, [9419]); (9446, [9420]); (9447, [9421]); (9448, [9422]); (9449, [9423]); (11312, [11264]); (11313, [11265]); (11314, [11266]);
   (11315, [11267]); (11316, [11268]); (11317, [11269]); (11318, [11270]); (11319, [11271]); (11320, [11272]); (11321, [11273]); (11322, [11274]);
   (11323, [11275]); (11324, [11276]); (11325, [11277]); (11326, [11278]); (11327, [11279]); (11328, [11280]); (11329, [11281]); (11330, [11282]);
   (11331, [11283]); (11332, [11284]); (11333, [11285]); (11334, [11286]); (11335, [11287]); (11336, [11288]); (11337, [11289]); (11338, [11290]);
   (11339, [11291]); (11340, [11292]); (11341, [11293]); (11342, [11294]); (11343, [11295]); (11344, [11296]); (11345, [11297]); (11346, [11298]);
   (11347, [11299]); (11348, [11300]); (11349, [11301]); (11350, [11302]); (11351, [11303]); (11352, [11304]); (11353, [11305]); (11354, [11306]);
   (11355, [11307]); (11356, [11308]); (11357, [11309]); (11358, [11310]); (11359, [11311]); (11361, [11360]); (11365, [570]); (11366, [574]);
   (11368, [11367]); (11370, [11369]); (11372, [11371]); (11379, [11378]); (11382, [11381]); (11393, [11392]); (11395, [11394]); (11397, [11396]);
   (11399, [11398]); (11401, [11400]); (11403, [11402]); (11405, [11404]); (11407, [11406]); (11409, [11408]); (11411, [11410]); (11413, [11412]);
   (11415, [11414]); (11417, [11416]); (11419, [11418]); (11421, [11420]); (11423, [11422]); (11425, [11424]); (11427, [11426]); (11429, [11428]);
   (11431, [11430]); (11433, [11432]); (11435, [11434]); (11437, [11436]); (11439, [11438]); (11441, [11440]); (11443, [11442]); (11445, [11444]);
   (11447, [11446]); (11449, [11448]); (11451, [11450]); (11453, [11452]); (11455, [11454]); (11457, [11456]); (11459, [11458]); (11461, [11460]);
   (11463, [11462]); (11465, [11464]); (11467, [11466]); (11469, [11468]); (11471, [11470]); (11473, [11472]); (11475, [11474]); (11477, [11476]);
   (11479, [11478]); (11481, [11480]); (11483, [11482]); (11485, [11484]); (11487, [11486]); (11489, [11488]); (11491, [11490]); (11500, [11499]);
   (11502, [11501]); (11507, [11506]); (11520, [4256]); (11521, [4257]); (11522, [4258]); (11523, [4259]); (11524, [4260]); (11525, [4261]);
   (11526, [4262]); (11527, [4263]); (11528, [4264]); (11529, [4265]); (11530, [4266]); (11531, [4267]); (11532, [4268]); (11533, [4269]);
   (11534, [4270]); (11535, [4271]); (11536, [4272]); (11537, [4273]); (11538, [4274]); (11539, [4275]); (11540, [4276]); (11541, [4277]);
   (11542, [4278]); (11543, [4279]); (11544, [4280]); (11545, [4281]); (11546, [4282]); (11547, [4283]); (11548, [4284]); (11549, [4285])]
  ++
  [(11550, [4286]); (11551, [4287]); (11552, [4288]); (11553, [4289]); (11554, [4290]); (11555, [4291]); (11556, [4292]); (11557, [4293]);
   (11559, [4295]); (11565, [4301]); (42561, [42560]); (42563, [42562]); (42565, [42564]); (42567, [42566]); (42569, [42568]); (42571, [42570]);
   (42573, [42572]); (42575, [42574]); (42577, [42576]); (42579, [42578]); (42581, [42580]); (42583, [42582]); (42585, [42584]); (42587, [42586]);
   (42589, [42588]); (42591, [42590]); (42593, [42592]); (42595, [42594]); (42597, [42596]); (42599, [42598]); (42601, [42600]); (42603, [42602]);
   (42605, [42604]); (42625, [42624]); (42627, [42626]); (42629, [42628]); (42631, [42630]); (42633, [42632]); (42635, [42634]); (42637, [42636]);
   (42639, [42638]); (42641, [42640]); (42643, [42642]); (42645, [42644]); (42647, [42646]); (42649, [42648]); (42651, [42650]); (42787, [42786]);
   (42789, [42788]); (42791, [42790]); (42793, [42792]); (42795, [42794]); (42797, [42796]); (42799, [42798]); (42803, [42802]); (42805, [42804]);
   (42807, [42806]); (42809, [42808]); (42811, [42810]); (42813, [42812]); (42815, [42814]); (42817, [42816]); (42819, [42818]); (42821, [42820]);
   (42823, [42822]); (42825, [42824]); (42827, [42826]); (42829, [42828]); (42831, [42830]); (42833, [42832]); (42835, [42834]); (42837, [42836]);
   (42839, [42838]); (42841, [42840]); (42843, [42842]); (42845, [42844]); (42847, [42846]); (42849, [42848]); (42851, [42850]); (42853, [42852]);
   (42855, [42854]); (42857, [42856]); (42859, [42858]); (42861, [42860]); (42863, [42862]); (42874, [42873]); (42876, [42875]); (42879, [42878]);
   (42881, [42880]); (42883, [42882]); (42885, [42884]); (42887, [42886]); (42892, [42891]); (42897, [42896]); (42899, [42898]); (42900, [42948]);
   (42903, [42902]); (42905, [42904]); (42907, [42906]); (42909, [42908]); (42911, [42910]); (42913, [42912]); (42915, [42914]); (42917, [42916]);
   (42919, [42918]); (42921, [42920]); (42933, [42932]); (42935, [42934]); (42937, [42936]); (42939, [42938]); (42941, [42940]); (42943, [42942]);
   (42945, [42944]); (42947, [42946]); (42952, [42951]); (42954, [42953]); (42961, [42960]); (42967, [42966]); (42969, [42968]); (42998, [42997]);
   (43859, [42931]); (43888, [5024]); (43889, [5025]); (43890, [5026]); (43891, [5027]); (43892, [5028]); (43893, [5029]); (43894, [5030]);
   (43895, [5031]); (43896, [5032]); (43897, [5033]); (43898, [5034]); (43899, [5035]); (43900, [5036]); (43901, [5037]); (43902, [5038]);
   (43903, [5039]); (43904, [5040]); (43905, [5041]); (43906, [5042]); (43907, [5043]); (43908, [5044]); (43909, [5045]); (43910, [5046]);
   (43911, [5047]); (43912, [5048]); (43913, [5049]); (43914, [5050]); (43915, [5051]); (43916, [5052]); (43917, [5053]); (43918, [5054]);
   (43919, [5055]); (43920, [5056]); (43921, [5057]); (43922, [5058]); (43923, [5059]); (43924, [5060]); (43925, [5061]); (43926, [5062]);
   (43927, [5063]); (43928, [5064]); (43929, [5065]); (43930, [5066]); (43931, [5067]); (43932, [5068]); (43933, [5069]); (43934, [5070]);
   (43935, [5071]); (43936, [5072]); (43937, [5073]); (43938, [5074]); (43939, [5075]); (43940, [5076]); (43941, [5077]); (43942, [5078]);
   (43943, [5079]); (43944, [5080]); (43945, [5081]); (43946, [5082]); (43947, [5083]); (43948, [5084]); (43949, [5085]); (43950, [5086]);
   (43951, [5087]); (43952, [5088]); (43953, [5089]); (43954, [5090]); (43955, [5091]); (43956, [5092]); (43957, [5093]); (43958, [5094]);
   (43959, [5095]); (43960, [5096]); (43961, [5097]); (43962, [5098]); (43963, [5099]); (43964, [5100]); (43965, [5101]); (43966, [5102])]
  ++
  [(43967, [5103]); (64256, [70; 70]); (64257, [70; 73]); (64258, [70; 76]); (64259, [70; 70; 73]); (64260, [70; 70; 76]); (64261, [83; 84]); (64262, [83; 84]);
   (64275, [1348; 1350]); (64276, [1348; 1333]); (64277, [1348; 1339]); (64278, [1358; 1350]); (64279, [1348; 1341]); (65345, [65313]); (65346, [65314]); (65347, [65315]);
   (65348, [65316]); (65349, [65317]); (65350, [65318]); (65351, [65319]); (65352, [65320]); (65353, [65321]); (65354, [65322]); (65355, [65323]);
   (65356, [65324]); (65357, [65325]); (65358, [65326]); (65359, [65327]); (65360, [65328]); (65361, [65329]); (65362, [65330]); (65363, [65331]);
   (65364, [65332]); (65365, [65333]); (65366, [65334]); (65367, [65335]); (65368, [65336]); (65369, [65337]); (65370, [65338]); (66600, [66560]);
   (66601, [66561]); (66602, [66562]); (66603, [66563]); (66604, [66564]); (66605, [66565]); (66606, [66566]); (66607, [66567]); (66608, [66568]);
   (66609, [66569]); (66610, [66570]); (66611, [66571]); (66612, [66572]); (66613, [66573]); (66614, [66574]); (66615, [66575]); (66616, [66576]);
   (66617, [66577]); (66618, [66578]); (66619, [66579]); (66620, [66580]); (66621, [66581]); (66622, [66582]); (66623, [66583]); (66624, [66584]);
   (66625, [66585]); (66626, [66586]); (66627, [66587]); (66628, [66588]); (66629, [66589]); (66630, [66590]); (66631, [66591]); (66632, [66592]);
   (66633, [66593]); (66634, [66594]); (66635, [66595]); (66636, [66596]); (66637, [66597]); (66638, [66598]); (66639, [66599]); (66776, [66736]);
   (66777, [66737]); (66778, [66738]); (66779, [66739]); (66780, [66740]); (66781, [66741]); (66782, [66742]); (66783, [66743]); (66784, [66744]);
   (66785, [66745]); (66786, [66746]); (66787, [66747]); (66788, [66748]); (66789, [66749]); (66790, [66750]); (66791, [66751]); (66792, [66752]);
   (66793, [66753]); (66794, [66754]); (66795, [66755]); (66796, [66756]); (66797, [66757]); (66798, [66758]); (66799, [66759]); (66800, [66760]);
   (66801, [66761]); (66802, [66762]); (66803, [66763]); (66804, [66764]); (66805, [66765]); (66806, [66766]); (66807, [66767]); (66808, [66768]);
   (66809, [66769]); (66810, [66770]); (66811, [66771]); (66967, [66928]); (66968, [66929]); (66969, [66930]); (66970, [66931]); (66971, [66932]);
   (66972, [66933]); (66973, [66934]); (66974, [66935]); (66975, [66936]); (66976, [66937]); (66977, [66938]); (66979, [66940]); (66980, [66941]);
   (66981, [66942]); (66982, [66943]); (66983, [66944]); (66984, [66945]); (66985, [66946]); (66986, [66947]); (66987, [66948]); (66988, [66949]);
   (66989, [66950]); (66990, [66951]); (66991, [66952]); (66992, [66953]); (66993, [66954]); (66995, [66956]); (66996, [66957]); (66997, [66958]);
   (66998, [66959]); (66999, [66960]); (67000, [66961]); (67001, [66962]); (67003, [66964]); (67004, [66965]); (68800, [68736]); (68801, [68737]);
   (68802, [68738]); (68803, [68739]); (68804, [68740]); (68805, [68741]); (68806, [68742]); (68807, [68743]); (68808, [68744]); (68809, [68745]);
   (68810, [68746]); (68811, [68747]); (68812, [68748]); (68813, [68749]); (68814, [68750]); (68815, [68751]); (68816, [68752]); (68817, [68753]);
   (68818, [68754]); (68819, [68755]); (68820, [68756]); (68821, [68757]); (68822, [68758]); (68823, [68759]); (68824, [68760]); (68825, [68761]);
   (68826, [68762]); (68827, [68763]); (68828, [68764]); (68829, [68765]); (68830, [68766]); (68831, [68767]); (68832, [68768]); (68833, [68769]);
   (68834, [68770]); (68835, [68771]); (68836, [68772]); (68837, [68773]); (68838, [68774]); (68839, [68775]); (68840, [68776]); (68841, [68777]);
   (68842, [68778]); (68843, [68779]); (68844, [68780]); (68845, [68781]); (68846, [68782]); (68847, [68783]); (68848, [68784]); (68849, [68785])]
  ++
  [(68850, [68786]); (71872, [71840]); (71873, [71841]); (71874, [71842]); (71875, [71843]); (71876, [71844]); (71877, [71845]); (71878, [71846]);
   (71879, [71847]); (71880, [71848]); (71881, [71849]); (71882, [71850]); (71883, [71851]); (71884, [71852]); (71885, [71853]); (71886, [71854]);
   (71887, [71855]); (71888, [71856]); (71889, [71857]); (71890, [71858]); (71891, [71859]); (71892, [71860]); (71893, [71861]); (71894, [71862]);
   (71895, [71863]); (71896, [71864]); (71897, [71865]); (71898, [71866]); (71899, [71867]); (71900, [71868]); (71901, [71869]); (71902, [71870]);
   (71903, [71871]); (93792, [93760]); (93793, [93761]); (93794, [93762]); (93795, [93763]); (93796, [93764]); (93797, [93765]); (93798, [93766]);
   (93799, [93767]); (93800, [93768]); (93801, [93769]); (93802, [93770]); (93803, [93771]); (93804, [93772]); (93805, [93773]); (93806, [93774]);
   (93807, [93775]); (93808, [93776]); (93809, [93777]); (93810, [93778]); (93811, [93779]); (93812, [93780]); (93813, [93781]); (93814, [93782]);
   (93815, [93783]); (93816, [93784]); (93817, [93785]); (93818, [93786]); (93819, [93787]); (93820, [93788]); (93821, [93789]); (93822, [93790]);
   (93823, [93791]); (125218, [125184]); (125219, [125185]); (125220, [125186]); (125221, [125187]); (125222, [125188]); (125223, [125189]); (125224, [125190]);
   (125225, [125191]); (125226, [125192]); (125227, [125193]); (125228, [125194]); (125229, [125195]); (125230, [125196]); (125231, [125197]); (125232, [125198]);
   (125233, [125199]); (125234, [125200]); (125235, [125201]); (125236, [125202]); (125237, [125203]); (125238, [125204]); (125239, [125205]); (125240, [125206]);
   (125241, [125207]); (125242, [125208]); (125243, [125209]); (125244, [125210]); (125245, [125211]); (125246, [125212]); (125247, [125213]); (125248, [125214]);
   (125249, [125215]); (125250, [125216]); (125251, [125217])])%N.


Fixpoint assoc (cp : N) (table : list (N * list N)) : option (list N) :=
  match table with
  | [] => None
  | (k, v) :: rest => if (k =? cp)%N then Some v else assoc cp rest
  end.

Definition upper_point (cp : N) : list N :=
  if ((97 <=? cp) && (cp <=? 122))%N then [(cp - 32)%N]
  else match assoc cp upper_table with
       | Some expansion => expansion
       | None => [cp]
       end.

(** [s.upper()]. *)
Definition upper (s : string) : string :=
  encode (flat_map upper_point (decode s)).
End Py.

(** ** The scheduler object *)

Record DiskScheduler : Type := {
  requests : list Z;
  initial_position : Z;
  disk_size : Z
}.

(** Default of the constructor's [disk_size] argument. *)
Definition default_disk_size : Z := 200.

(** The [for req in self.requests] loop of [validate_requests]. *)
Fixpoint validate_each (disk_size : Z) (reqs : list Z) : result unit :=
  match reqs with
  | [] => Ok tt
  | req :: rest =>
      if (req <? 0) || (req >=? disk_size)
      then Raise (OutOfBounds req 0 (disk_size - 1))
      else validate_each disk_size rest
  end.

Definition validate_requests (self : DiskScheduler) : result unit :=
  validate_each (disk_size self) (requests self).

(** [DiskScheduler.__init__]: stores its three arguments, then validates. *)
Definition __init__ (requests : list Z) (initial_position disk_size : Z)
  : result DiskScheduler :=
  let self := {| requests := requests;
                 initial_position := initial_position;
                 disk_size := disk_size |} in
  _ <- validate_requests self ;;
  Ok self.

(** One iteration of the loop of [calculate_seek_time]; the state is
    [(total_seek_time, seek_operations, current)]. *)
Definition seek_step (st : Z * list (Z * Z) * Z) (track : Z)
  : Z * list (Z * Z) * Z :=
  let '(total_seek_time, seek_operations, current) := st in
  let seek_distance := Z.abs (track - current) in
  (total_seek_time + seek_distance, seek_operations ++ [(current, track)], track).

Definition calculate_seek_time (self : DiskScheduler) (sequence : list Z)
  : Z * list (Z * Z) :=
  match sequence with
  | [] => (0, [])
  | _ =>
      let '(total_seek_time, seek_operations, _) :=
        fold_left seek_step sequence (0, [], initial_position self) in
      (total_seek_time, seek_operations)
  end.

(** A policy returns [(sequence, total_seek_time, seek_operations)]. *)
Definition outcome : Type := list Z * Z * list (Z * Z).

Definition order_of (o : outcome) : list Z := fst (fst o).
Definition total_of (o : outcome) : Z := snd (fst o).
Definition operations_of (o : outcome) : list (Z * Z) := snd o.

Definition fcfs (self : DiskScheduler) : outcome :=
  let sequence := requests self in
  let '(total_seek_time, seek_operations) := calculate_seek_time self sequence in
  (sequence, total_seek_time, seek_operations).

(** The [while remaining_requests] loop of [sstf].  Each turn removes the
    item it has just selected, so the list gets shorter. *)
Equations? sstf_loop (remaining_requests : list Z) (current_position : Z)
    (sequence : list Z) : list Z by wf (length remaining_requests) lt :=
  sstf_loop [] _ sequence := sequence;
  sstf_loop (r :: rest) current_position sequence :=
    let closest :=
      Py.min_scan (fun x => Z.abs (x - current_position)) r rest in
    sstf_loop (Py.remove closest (r :: rest)) closest (sequence ++ [closest]).
Proof.
  pose proof (Py.remove_length _ _ (Py.min_scan_In
    (fun x => Z.abs (x - current_position)) rest r)) as H.
  subst closest. simpl in H. lia.
Qed.

Definition sstf (self : DiskScheduler) : outcome :=
  let sequence := sstf_loop (requests self) (initial_position self) [] in
  let '(total_seek_time, seek_operations) := calculate_seek_time self sequence in
  (sequence, total_seek_time, seek_operations).

(** [going_right = direction.lower() == "right"]. *)
Definition going_right (direction : string) : bool :=
  (Py.lower direction =? "right")%string.

(** The sequence built by [scan], before its cost is computed. *)
Definition scan_sequence (self : DiskScheduler) (direction : string) : list Z :=
  let remaining_requests := Py.sorted (requests self) in
  let current_position := initial_position self in
  if going_right direction then
    let right_side := filter (fun r => r >=? current_position) remaining_requests in
    let left_side := filter (fun r => r <? current_position) remaining_requests in
    let sequence := [] ++ Py.sorted right_side in
    match left_side with
    | [] => sequence
    | _ :: _ => (sequence ++ [disk_size self - 1]) ++ Py.sorted_reverse left_side
    end
  else
    let left_side := filter (fun r => r <=? current_position) remaining_requests in
    let right_side := filter (fun r => r >? current_position) remaining_requests in
    let sequence := [] ++ Py.sorted_reverse left_side in
    match right_side with
    | [] => sequence
    | _ :: _ => (sequence ++ [0]) ++ Py.sorted right_side
    end.

Definition scan (self : DiskScheduler) (direction : string) : outcome :=
  let sequence := scan_sequence self direction in
  let '(total_seek_time, seek_operations) := calculate_seek_time self sequence in
  (sequence, total_seek_time, seek_operations).

(** The sequence built by [c_scan]. *)
Definition c_scan_sequence (self : DiskScheduler) (direction : string) : list Z :=
  let remaining_requests := Py.sorted (requests self) in
  let current_position := initial_position self in
  if going_right direction then
    let right_side := filter (fun r => r >=? current_position) remaining_requests in
    let left_side := filter (fun r => r <? current_position) remaining_requests in
    let sequence := [] ++ Py.sorted right_side in
    match left_side with
    | [] => sequence
    | _ :: _ =>
        ((sequence ++ [disk_size self - 1]) ++ [0]) ++ Py.sorted left_side
    end
  else
    let left_side := filter (fun r => r <=? current_position) remaining_requests in
    let right_side := filter (fun r => r >? current_position) remaining_requests in
    let sequence := [] ++ Py.sorted_reverse left_side in
    match right_side with
    | [] => sequence
    | _ :: _ =>
        ((sequence ++ [0]) ++ [disk_size self - 1]) ++ Py.sorted_reverse right_side
    end.

Definition c_scan (self : DiskScheduler) (direction : string) : outcome :=
  let sequence := c_scan_sequence self direction in
  let '(total_seek_time, seek_operations) := calculate_seek_time self sequence in
  (sequence, total_seek_time, seek_operations).

Definition look (self : DiskScheduler) (direction : string) : outcome :=
  let remaining_requests := Py.sorted (requests self) in
  let current_position := initial_position self in
  match remaining_requests with
  | [] => ([], 0, [])
  | _ :: _ =>
      let sequence :=
        if going_right direction then
          let right_side := filter (fun r => r >=? current_position) remaining_requests in
          let left_side := filter (fun r => r <? current_position) remaining_requests in
          let sequence := [] ++ Py.sorted right_side in
          match left_side with
          | [] => sequence
          | _ :: _ => sequence ++ Py.sorted_reverse left_side
          end
        else
          let left_side := filter (fun r => r <=? current_position) remaining_requests in
          let right_side := filter (fun r => r >? current_position) remaining_requests in
          let sequence := [] ++ Py.sorted_reverse left_side in
          match right_side with
          | [] => sequence
          | _ :: _ => sequence ++ Py.sorted right_side
          end in
      let '(total_seek_time, seek_operations) := calculate_seek_time self sequence in
      (sequence, total_seek_time, seek_operations)
  end.

Definition c_look (self : DiskScheduler) (direction : string) : outcome :=
  let remaining_requests := Py.sorted (requests self) in
  let current_position := initial_position self in
  match remaining_requests with
  | [] => ([], 0, [])
  | _ :: _ =>
      let sequence :=
        if going_right direction then
          let right_side := filter (fun r => r >=? current_position) remaining_requests in
          let left_side := filter (fun r => r <? current_position) remaining_requests in
          let sequence := [] ++ Py.sorted right_side in
          match left_side with
          | [] => sequence
          | _ :: _ => sequence ++ Py.sorted left_side
          end
        else
          let left_side := filter (fun r => r <=? current_position) remaining_requests in
          let right_side := filter (fun r => r >? current_position) remaining_requests in
          let sequence := [] ++ Py.sorted_reverse left_side in
          match right_side with
          | [] => sequence
          | _ :: _ => sequence ++ Py.sorted_reverse right_side
          end in
      let '(total_seek_time, seek_operations) := calculate_seek_time self sequence in
      (sequence, total_seek_time, seek_operations)
  end.

(** ** The dispatcher *)

(** The quotient of two integers has no float when, rounded to the nearest
    float (ties to even), it would be 2^1024 or more: from
    2^1024 - 2^970 on, half-way between the largest float and 2^1024. *)
Definition true_div_overflows (a b : Z) : bool :=
  (2 ^ 1024 - 2 ^ 970) * Z.abs b <=? Z.abs a.

Section Simulate.

(** The values of Python floats are not modelled.  The two floating-point
    operations of [simulate] are taken as given: [true_div total n] is the
    float nearest to the quotient of two integers, where there is one, and
    [round2 x] is [round(x, 2)] on a float. *)
Variable float : Type.
Variable true_div : Z -> Z -> float.
Variable round2 : float -> float.

(** [a / b] on integers. *)
Definition py_true_div (a b : Z) : result float :=
  if b =? 0 then Raise ZeroDivisionError
  else if true_div_overflows a b then Raise OverflowError
  else Ok (true_div a b).

(** A Python number: the average is the int [0] for an empty sequence and a
    float otherwise. *)
Inductive number : Type :=
| Int (z : Z)
| Float (x : float).

(** [round(v, 2)]: an int comes back unchanged, a float is rounded. *)
Definition round (v : number) : number :=
  match v with
  | Int z => Int z
  | Float x => Float (round2 x)
  end.

(** The dictionary [simulate] returns, one field per key (the key
    "initial_position" is the field [initial_position']). *)
Record simulation : Type := {
  algorithm : string;
  sequence : list Z;
  total_seek_time : Z;
  average_seek_time : number;
  seek_operations : list (Z * Z);
  total_requests : Z;
  initial_position' : Z
}.

(** The [if]/[elif] chain of [simulate], on the upper-cased name. *)
Definition dispatch (self : DiskScheduler) (algorithm direction : string)
  : result outcome :=
  if (algorithm =? "FCFS")%string then Ok (fcfs self)
  else if (algorithm =? "SSTF")%string then Ok (sstf self)
  else if (algorithm =? "SCAN")%string then Ok (scan self direction)
  else if ((algorithm =? "C-SCAN") || (algorithm =? "CSCAN"))%string
       then Ok (c_scan self direction)
  else if (algorithm =? "LOOK")%string then Ok (look self direction)
  else if ((algorithm =? "C-LOOK") || (algorithm =? "CLOOK"))%string
       then Ok (c_look self direction)
  else Raise (UnknownAlgorithm algorithm).

Definition simulate (self : DiskScheduler) (algorithm direction : string)
  : result simulation :=
  let algorithm := Py.upper algorithm in
  o <- dispatch self algorithm direction ;;
  let '(sequence, total_seek_time, seek_operations) := o in
  average_seek_time <-
    match sequence with
    | [] => Ok (Int 0)
    | _ :: _ =>
        x <- py_true_div total_seek_time (Z.of_nat (length sequence)) ;;
        Ok (Float x)
    end ;;
  Ok {| algorithm := algorithm;
        sequence := sequence;
        total_seek_time := total_seek_time;
        average_seek_time := round average_seek_time;
        seek_operations := seek_operations;
        total_requests := Z.of_nat (length (requests self));
        initial_position' := initial_position self |}.

End Simulate.

Arguments Int {float} z.
Arguments Float {float} x.
Arguments algorithm {float} s.
Arguments sequence {float} s.
Arguments total_seek_time {float} s.
Arguments average_seek_time {float} s.
Arguments seek_operations {float} s.
Arguments total_requests {float} s.
Arguments initial_position' {float} s.
Arguments simulate {float} true_div round2 self algorithm direction.

(** ** Specification vocabulary *)

(** The first concrete scenario of the specification. *)
Definition scenario : DiskScheduler :=
  {| requests := [98; 183; 37; 122; 14; 124; 65; 67];
     initial_position := 53;
     disk_size := 200 |}.

(** The cost of one head movement and of a list of movements. *)
Definition seek_distance (op : Z * Z) : Z := Z.abs (snd op - fst op).

Definition sum_distances (ops : list (Z * Z)) : Z :=
  fold_right (fun op acc => seek_distance op + acc) 0 ops.

(** The head movements of a walk that starts at [from] and visits
    [sequence] in order. *)
Fixpoint walk (from : Z) (sequence : list Z) : list (Z * Z) :=
  match sequence with
  | [] => []
  | track :: rest => (from, track) :: walk track rest
  end.

(** A track the disk has. *)
Definition in_range (disk_size r : Z) : Prop := 0 <= r < disk_size.

(** Sorted orders. *)
Definition ascending (l : list Z) : Prop := StronglySorted Z.le l.
Definition descending (l : list Z) : Prop := StronglySorted Z.ge l.

(** [order] is [group] put in increasing, respectively decreasing, order. *)
Definition increasing_order_of (group order : list Z) : Prop :=
  Permutation order group /\ ascending order.
Definition decreasing_order_of (group order : list Z) : Prop :=
  Permutation order group /\ descending order.

(** Distance from the head at [p] to track [x]: the key of the [min]. *)
Definition distance (p x : Z) : Z := Z.abs (x - p).

(** [c] is the request SSTF picks out of [before ++ c :: after] with the
    head at [p]: no request is nearer, and the requests listed before it are
    strictly farther. *)
Definition first_nearest (p : Z) (before : list Z) (c : Z) (after : list Z)
  : Prop :=
  (forall x, In x before -> distance p c < distance p x) /\
  (forall x, In x after -> distance p c <= distance p x).

(** The service order that results from picking the first-listed nearest
    request again and again. *)
Inductive nearest_first : Z -> list Z -> list Z -> Prop :=
| nearest_done (p : Z) : nearest_first p [] []
| nearest_pick (p : Z) (before : list Z) (c : Z) (after order : list Z) :
    first_nearest p before c after ->
    nearest_first c (before ++ after) order ->
    nearest_first p (before ++ c :: after) (c :: order).

(** The rule of the specification: among the nearest requests, the one of
    lowest value. *)
Definition lowest_nearest (p : Z) (remaining : list Z) (c : Z) : Prop :=
  In c remaining /\
  forall x, In x remaining ->
    distance p c < distance p x \/ (distance p c = distance p x /\ c <= x).

(** The edge tracks SCAN and C-SCAN add to the requests. *)
Definition scan_waypoints (self : DiskScheduler) (direction : string) : list Z :=
  let p := initial_position self in
  if going_right direction then
    if existsb (fun r => r <? p) (requests self)
    then [disk_size self - 1] else []
  else
    if existsb (fun r => r >? p) (requests self) then [0] else [].

Definition c_scan_waypoints (self : DiskScheduler) (direction : string)
  : list Z :=
  let p := initial_position self in
  if going_right direction then
    if existsb (fun r => r <? p) (requests self)
    then [disk_size self - 1; 0] else []
  else
    if existsb (fun r => r >? p) (requests self)
    then [0; disk_size self - 1] else [].

(** Track [t] occurs twice in a row in the order of [o], which shows as a
    head movement from [t] to [t]. *)
Definition served_twice_in_a_row (t : Z) (o : outcome) : Prop :=
  (exists l1 l2, order_of o = l1 ++ [t; t] ++ l2) /\
  In (t, t) (operations_of o).

(** The names the dispatcher knows, as it compares them. *)
Definition supported_names : list string :=
  ["FCFS"; "SSTF"; "SCAN"; "C-SCAN"; "CSCAN"; "LOOK"; "C-LOOK"; "CLOOK"]%string.

Definition letter (c : ascii) : bool := Py.is_lower c || Py.is_upper c.

(** Two characters that are equal, or the two cases of one letter. *)
Definition same_letter (a b : ascii) : Prop :=
  a = b \/
  (letter a = true /\ letter b = true /\
   (N_of_ascii a + 32 = N_of_ascii b \/ N_of_ascii b + 32 = N_of_ascii a)%N).

(** Equality of names up to the case of their letters. *)
Inductive same_ignoring_case : string -> string -> Prop :=
| same_empty : same_ignoring_case EmptyString EmptyString
| same_char (a b : ascii) (s t : string) :
    same_letter a b -> same_ignoring_case s t ->
    same_ignoring_case (String a s) (String b t).

Definition recognised (name : string) : Prop :=
  exists n, In n supported_names /\ same_ignoring_case name n.

(** [s.isascii()]: every byte is below 128, so that each byte is a
    character. *)
Definition isascii (s : string) : bool :=
  forallb (fun c => (N_of_ascii c <? 128)%N) (list_ascii_of_string s).

(** What a policy returned, whichever it was. *)
Definition policy_outcome (self : DiskScheduler) (direction : string)
    (o : outcome) : Prop :=
  o = fcfs self \/ o = sstf self \/
  o = scan self direction \/ o = c_scan self direction \/
  o = look self direction \/ o = c_look self direction.

(** The division of [simulate] overflows on this outcome. *)
Definition average_overflows (o : outcome) : bool :=
  match order_of o with
  | [] => false
  | _ :: _ =>
      true_div_overflows (total_of o) (Z.of_nat (length (order_of o)))
  end.

(** Floats left uninterpreted: the terms [simulate] builds. *)
Inductive float_term : Type :=
| Quotient (total count : Z)
| Rounded2 (x : float_term).

(** ** Seek-time accounting *)

Lemma fold_seek_step (sequence : list Z) :
  forall total ops current,
    fst (fold_left seek_step sequence (total, ops, current)) =
    (total + sum_distances (walk current sequence),
     ops ++ walk current sequence).
Proof.
  induction sequence as [|track rest IH]; intros total ops current.
  - simpl. now rewrite Z.add_0_r, app_nil_r.
  - cbn [fold_left seek_step walk]. rewrite IH.
    rewrite <- app_assoc. cbn [app].
    replace (sum_distances ((current, track) :: walk track rest))
      with (Z.abs (track - current) + sum_distances (walk track rest))
      by reflexivity.
    f_equal; lia.
Qed.

Lemma calculate_seek_time_walk (self : DiskScheduler) (sequence : list Z) :
  calculate_seek_time self sequence =
  (sum_distances (walk (initial_position self) sequence),
   walk (initial_position self) sequence).
Proof.
  destruct sequence as [|track rest]; [reflexivity|].
  unfold calculate_seek_time.
  pose proof (fold_seek_step (track :: rest) 0 [] (initial_position self)) as H.
  destruct (fold_left seek_step (track :: rest) (0, [], initial_position self))
    as [[total ops] current].
  cbn [fst] in H. now rewrite H.
Qed.

Lemma walk_length (from : Z) (sequence : list Z) :
  length (walk from sequence) = length sequence.
Proof.
  revert from; induction sequence; intros; simpl; [reflexivity | now rewrite IHsequence].
Qed.

Lemma walk_targets (from : Z) (sequence : list Z) :
  map snd (walk from sequence) = sequence.
Proof.
  revert from; induction sequence; intros; simpl; [reflexivity | now rewrite IHsequence].
Qed.

Lemma walk_chained (sequence : list Z) :
  forall from i a b,
    nth_error (walk from sequence) i = Some a ->
    nth_error (walk from sequence) (S i) = Some b ->
    snd a = fst b.
Proof.
  induction sequence as [|track rest IH]; intros from i a b Ha Hb.
  - destruct i; discriminate.
  - destruct i as [|i].
    + simpl in Ha. injection Ha as <-.
      destruct rest as [|track' rest']; [discriminate|].
      simpl in Hb. now injection Hb as <-.
    + simpl in Ha, Hb. exact (IH track i a b Ha Hb).
Qed.

(** C1.  [calculate_seek_time] returns a total equal to the sum of
    [|to - from|] over the operations it returns; there is one operation per
    track of the sequence; the first operation leaves from the initial head
    position; each operation arrives where the next one leaves from (and at
    the track of the sequence it serves); an empty sequence gives total 0
    and no operation. *)
Theorem calculate_seek_time_accounting (self : DiskScheduler) (sequence : list Z) :
  let total := fst (calculate_seek_time self sequence) in
  let ops := snd (calculate_seek_time self sequence) in
  total = sum_distances ops /\
  length ops = length sequence /\
  (forall op, hd_error ops = Some op -> fst op = initial_position self) /\
  (forall i a b,
      nth_error ops i = Some a -> nth_error ops (S i) = Some b ->
      snd a = fst b) /\
  map snd ops = sequence /\
  calculate_seek_time self [] = (0, []).
Proof.
  rewrite calculate_seek_time_walk. cbn [fst snd].
  repeat split.
  - apply walk_length.
  - intros op H. destruct sequence; [discriminate|].
    simpl in H. now injection H as <-.
  - apply walk_chained.
  - apply walk_targets.
Qed.

(** ** FCFS *)

(** C7.  The service order of FCFS is the request list as given; on the
    scenario requests [98,183,37,122,14,124,65,67] with the head at 53 and
    200 tracks, the order is that list and the total seek time is 640. *)
Theorem fcfs_order_is_input (self : DiskScheduler) :
  order_of (fcfs self) = requests self /\
  order_of (fcfs scenario) = [98; 183; 37; 122; 14; 124; 65; 67] /\
  total_of (fcfs scenario) = 640.
Proof.
  split; [|split; reflexivity].
  unfold fcfs. now destruct (calculate_seek_time self (requests self)).
Qed.

(** ** Construction and validation *)






(** ** Sorting and splitting *)

Lemma StronglySorted_weaken {A : Type} (R S : A -> A -> Prop) (l : list A) :
  (forall x y, R x y -> S x y) -> StronglySorted R l -> StronglySorted S l.
Proof.
  intros HRS; induction 1 as [|x l _ IH Hx]; constructor; [exact IH|].
  eapply Forall_impl; [|exact Hx]. intros y; apply HRS.
Qed.

Lemma sorted_ascending (l : list Z) : ascending (Py.sorted l).
Proof.
  eapply StronglySorted_weaken;
    [|apply Py.AscendingSort.StronglySorted_sort].
  - intros x y H. now apply Z.leb_le.
  - intros x y z Hxy Hyz. unfold is_true, Py.Ascending.leb in *.
    rewrite Z.leb_le in *. lia.
Qed.

Lemma sorted_reverse_descending (l : list Z) : descending (Py.sorted_reverse l).
Proof.
  eapply StronglySorted_weaken;
    [|apply Py.DescendingSort.StronglySorted_sort].
  - intros x y H. unfold is_true, Py.Descending.leb in H.
    rewrite Z.leb_le in H. lia.
  - intros x y z Hxy Hyz. unfold is_true, Py.Descending.leb in *.
    rewrite Z.leb_le in *. lia.
Qed.

Lemma sorted_perm (l : list Z) : Permutation (Py.sorted l) l.
Proof. symmetry. apply Py.AscendingSort.Permuted_sort. Qed.

Lemma sorted_reverse_perm (l : list Z) : Permutation (Py.sorted_reverse l) l.
Proof. symmetry. apply Py.DescendingSort.Permuted_sort. Qed.

Lemma filter_perm {A : Type} (f : A -> bool) (l l' : list A) :
  Permutation l l' -> Permutation (filter f l) (filter f l').
Proof.
  induction 1 as [|x l l' _ IH|x y l|l l' l'' _ IH1 _ IH2]; simpl.
  - constructor.
  - destruct (f x); [now constructor | exact IH].
  - destruct (f x), (f y); try reflexivity. constructor.
  - now transitivity (filter f l').
Qed.

(** The side lists of the directional policies are taken from the sorted
    requests and sorted once more. *)
Lemma side_increasing (f : Z -> bool) (l : list Z) :
  increasing_order_of (filter f l) (Py.sorted (filter f (Py.sorted l))).
Proof.
  split; [|apply sorted_ascending].
  rewrite sorted_perm. apply filter_perm, sorted_perm.
Qed.

Lemma side_decreasing (f : Z -> bool) (l : list Z) :
  decreasing_order_of (filter f l) (Py.sorted_reverse (filter f (Py.sorted l))).
Proof.
  split; [|apply sorted_reverse_descending].
  rewrite sorted_reverse_perm. apply filter_perm, sorted_perm.
Qed.

(** The test [if left_side:] (or [if right_side:]) asks whether some request
    passes the filter. *)
Lemma side_empty (f : Z -> bool) (l : list Z) :
  match filter f (Py.sorted l) with
  | [] => existsb f l = false
  | _ :: _ => existsb f l = true
  end.
Proof.
  destruct (filter f (Py.sorted l)) as [|x side] eqn:E.
  - destruct (existsb f l) eqn:Ex; [|reflexivity].
    apply existsb_exists in Ex. destruct Ex as (x & Hin & Hf).
    assert (H : In x (filter f (Py.sorted l))).
    { apply filter_In. split; [|exact Hf].
      eapply Permutation_in; [symmetry; apply sorted_perm | exact Hin]. }
    rewrite E in H. destruct H.
  - apply existsb_exists. exists x.
    assert (H : In x (filter f (Py.sorted l))) by (rewrite E; now left).
    apply filter_In in H. destruct H as [Hin Hf]. split; [|exact Hf].
    eapply Permutation_in; [apply sorted_perm | exact Hin].
Qed.

Lemma going_right_right : going_right "right" = true.
Proof. reflexivity. Qed.

Lemma going_right_left : going_right "left" = false.
Proof. reflexivity. Qed.

Lemma order_of_scan (self : DiskScheduler) (direction : string) :
  order_of (scan self direction) = scan_sequence self direction.
Proof.
  unfold scan.
  now destruct (calculate_seek_time self (scan_sequence self direction)).
Qed.

Lemma order_of_c_scan (self : DiskScheduler) (direction : string) :
  order_of (c_scan self direction) = c_scan_sequence self direction.
Proof.
  unfold c_scan.
  now destruct (calculate_seek_time self (c_scan_sequence self direction)).
Qed.

(** The shape of the sequences the two edge policies build, for any
    direction string. *)
Lemma scan_sequence_shape (self : DiskScheduler) (direction : string) :
  let p := initial_position self in
  let sreqs := Py.sorted (requests self) in
  scan_sequence self direction =
  if going_right direction then
    Py.sorted (filter (fun r => r >=? p) sreqs)
    ++ (if existsb (fun r => r <? p) (requests self)
        then [disk_size self - 1] else [])
    ++ Py.sorted_reverse (filter (fun r => r <? p) sreqs)
  else
    Py.sorted_reverse (filter (fun r => r <=? p) sreqs)
    ++ (if existsb (fun r => r >? p) (requests self) then [0] else [])
    ++ Py.sorted (filter (fun r => r >? p) sreqs).
Proof.
  intros p sreqs. unfold scan_sequence. fold p sreqs. cbv zeta.
  destruct (going_right direction).
  - pose proof (side_empty (fun r => r <? p) (requests self)) as H.
    fold sreqs in H.
    destruct (filter (fun r => r <? p) sreqs); rewrite H; cbn [app].
    + now rewrite app_nil_r.
    + now rewrite <- app_assoc.
  - pose proof (side_empty (fun r => r >? p) (requests self)) as H.
    fold sreqs in H.
    destruct (filter (fun r => r >? p) sreqs); rewrite H; cbn [app].
    + now rewrite app_nil_r.
    + now rewrite <- app_assoc.
Qed.

Lemma c_scan_sequence_shape (self : DiskScheduler) (direction : string) :
  let p := initial_position self in
  let sreqs := Py.sorted (requests self) in
  c_scan_sequence self direction =
  if going_right direction then
    Py.sorted (filter (fun r => r >=? p) sreqs)
    ++ (if existsb (fun r => r <? p) (requests self)
        then [disk_size self - 1; 0] else [])
    ++ Py.sorted (filter (fun r => r <? p) sreqs)
  else
    Py.sorted_reverse (filter (fun r => r <=? p) sreqs)
    ++ (if existsb (fun r => r >? p) (requests self)
        then [0; disk_size self - 1] else [])
    ++ Py.sorted_reverse (filter (fun r => r >? p) sreqs).
Proof.
  intros p sreqs. unfold c_scan_sequence. fold p sreqs. cbv zeta.
  destruct (going_right direction).
  - pose proof (side_empty (fun r => r <? p) (requests self)) as H.
    fold sreqs in H.
    destruct (filter (fun r => r <? p) sreqs); rewrite H; cbn [app].
    + now rewrite app_nil_r.
    + now rewrite <- !app_assoc.
  - pose proof (side_empty (fun r => r >? p) (requests self)) as H.
    fold sreqs in H.
    destruct (filter (fun r => r >? p) sreqs); rewrite H; cbn [app].
    + now rewrite app_nil_r.
    + now rewrite <- !app_assoc.
Qed.

(** ** SCAN *)

(** C5.  With direction "right" the order of SCAN is the requests at or
    above the initial position in increasing order, then the edge track
    disk_size - 1 exactly when some request lies below the initial position,
    then the requests below it in decreasing order.  With direction "left":
    the requests at or below the initial position in decreasing order, then
    track 0 exactly when some request lies above it, then the requests above
    it in increasing order. *)
Theorem scan_service_order (self : DiskScheduler) :
  let p := initial_position self in
  let reqs := requests self in
  (exists ahead behind,
      increasing_order_of (filter (fun r => r >=? p) reqs) ahead /\
      decreasing_order_of (filter (fun r => r <? p) reqs) behind /\
      order_of (scan self "right") =
        ahead
        ++ (if existsb (fun r => r <? p) reqs then [disk_size self - 1] else [])
        ++ behind) /\
  (exists behind ahead,
      decreasing_order_of (filter (fun r => r <=? p) reqs) behind /\
      increasing_order_of (filter (fun r => r >? p) reqs) ahead /\
      order_of (scan self "left") =
        behind
        ++ (if existsb (fun r => r >? p) reqs then [0] else [])
        ++ ahead).
Proof.
  intros p reqs. split.
  - exists (Py.sorted (filter (fun r => r >=? p) (Py.sorted reqs))),
           (Py.sorted_reverse (filter (fun r => r <? p) (Py.sorted reqs))).
    split; [apply side_increasing|]. split; [apply side_decreasing|].
    now rewrite order_of_scan, scan_sequence_shape, going_right_right.
  - exists (Py.sorted_reverse (filter (fun r => r <=? p) (Py.sorted reqs))),
           (Py.sorted (filter (fun r => r >? p) (Py.sorted reqs))).
    split; [apply side_decreasing|]. split; [apply side_increasing|].
    now rewrite order_of_scan, scan_sequence_shape, going_right_left.
Qed.

(** ** C-SCAN *)

(** C6.  With direction "right" C-SCAN serves the requests at or above the
    initial position in increasing order and, exactly when some request lies
    below it, then visits disk_size - 1 and 0, in that order, and serves the
    requests below in increasing order as well.  With direction "left" the
    groups are served in decreasing order and the waypoints are 0 then
    disk_size - 1. *)
Theorem c_scan_service_order (self : DiskScheduler) :
  let p := initial_position self in
  let reqs := requests self in
  (exists ahead wrapped,
      increasing_order_of (filter (fun r => r >=? p) reqs) ahead /\
      increasing_order_of (filter (fun r => r <? p) reqs) wrapped /\
      order_of (c_scan self "right") =
        ahead
        ++ (if existsb (fun r => r <? p) reqs
            then [disk_size self - 1; 0] else [])
        ++ wrapped) /\
  (exists behind wrapped,
      decreasing_order_of (filter (fun r => r <=? p) reqs) behind /\
      decreasing_order_of (filter (fun r => r >? p) reqs) wrapped /\
      order_of (c_scan self "left") =
        behind
        ++ (if existsb (fun r => r >? p) reqs
            then [0; disk_size self - 1] else [])
        ++ wrapped).
Proof.
  intros p reqs. split.
  - exists (Py.sorted (filter (fun r => r >=? p) (Py.sorted reqs))),
           (Py.sorted (filter (fun r => r <? p) (Py.sorted reqs))).
    split; [apply side_increasing|]. split; [apply side_increasing|].
    now rewrite order_of_c_scan, c_scan_sequence_shape, going_right_right.
  - exists (Py.sorted_reverse (filter (fun r => r <=? p) (Py.sorted reqs))),
           (Py.sorted_reverse (filter (fun r => r >? p) (Py.sorted reqs))).
    split; [apply side_decreasing|]. split; [apply side_decreasing|].
    now rewrite order_of_c_scan, c_scan_sequence_shape, going_right_left.
Qed.

(** ** Service orders as rearrangements of the requests *)

Lemma split_perm {A : Type} (f g : A -> bool) (l : list A) :
  (forall x, g x = negb (f x)) ->
  Permutation (filter f l ++ filter g l) l.
Proof.
  intros Hfg. induction l as [|x l IH]; simpl; [constructor|].
  rewrite Hfg. destruct (f x); simpl.
  - now constructor.
  - symmetry. apply Permutation_cons_app. now symmetry.
Qed.

Lemma below_not_at_or_above (p x : Z) : (x <? p) = negb (x >=? p).
Proof. destruct (Z.ltb_spec x p), (Z.geb_spec x p); (reflexivity || lia). Qed.

Lemma above_not_at_or_below (p x : Z) : (x >? p) = negb (x <=? p).
Proof. destruct (Z.gtb_spec x p), (Z.leb_spec x p); (reflexivity || lia). Qed.

(** Two complementary sides, each rearranged, together hold the requests. *)
Lemma sides_perm (f g : Z -> bool) (l first second : list Z) :
  (forall x, g x = negb (f x)) ->
  Permutation first (filter f l) -> Permutation second (filter g l) ->
  Permutation (first ++ second) l.
Proof.
  intros Hfg H1 H2. rewrite H1, H2. now apply split_perm.
Qed.

Lemma look_order_shape (self : DiskScheduler) (direction : string) :
  let p := initial_position self in
  let sreqs := Py.sorted (requests self) in
  order_of (look self direction) =
  if going_right direction then
    Py.sorted (filter (fun r => r >=? p) sreqs)
    ++ Py.sorted_reverse (filter (fun r => r <? p) sreqs)
  else
    Py.sorted_reverse (filter (fun r => r <=? p) sreqs)
    ++ Py.sorted (filter (fun r => r >? p) sreqs).
Proof.
  intros p sreqs. unfold look. fold p sreqs. cbv zeta.
  destruct sreqs as [|r0 sreqs'] eqn:E.
  - now destruct (going_right direction).
  - match goal with
    | |- order_of (let '(_, _) := calculate_seek_time self ?s in _) = _ =>
        destruct (calculate_seek_time self s); unfold order_of; cbn [fst]
    end.
    destruct (going_right direction).
    + destruct (filter (fun r => r <? p) (r0 :: sreqs')); cbn [app];
        [now rewrite app_nil_r | reflexivity].
    + destruct (filter (fun r => r >? p) (r0 :: sreqs')); cbn [app];
        [now rewrite app_nil_r | reflexivity].
Qed.

Lemma c_look_order_shape (self : DiskScheduler) (direction : string) :
  let p := initial_position self in
  let sreqs := Py.sorted (requests self) in
  order_of (c_look self direction) =
  if going_right direction then
    Py.sorted (filter (fun r => r >=? p) sreqs)
    ++ Py.sorted (filter (fun r => r <? p) sreqs)
  else
    Py.sorted_reverse (filter (fun r => r <=? p) sreqs)
    ++ Py.sorted_reverse (filter (fun r => r >? p) sreqs).
Proof.
  intros p sreqs. unfold c_look. fold p sreqs. cbv zeta.
  destruct sreqs as [|r0 sreqs'] eqn:E.
  - now destruct (going_right direction).
  - match goal with
    | |- order_of (let '(_, _) := calculate_seek_time self ?s in _) = _ =>
        destruct (calculate_seek_time self s); unfold order_of; cbn [fst]
    end.
    destruct (going_right direction).
    + destruct (filter (fun r => r <? p) (r0 :: sreqs')); cbn [app];
        [now rewrite app_nil_r | reflexivity].
    + destruct (filter (fun r => r >? p) (r0 :: sreqs')); cbn [app];
        [now rewrite app_nil_r | reflexivity].
Qed.

(** ** SSTF *)

Lemma sstf_loop_cons (r : Z) (rest : list Z) (p : Z) (seq : list Z) :
  sstf_loop (r :: rest) p seq =
  sstf_loop (Py.remove (Py.min_scan (distance p) r rest) (r :: rest))
            (Py.min_scan (distance p) r rest)
            (seq ++ [Py.min_scan (distance p) r rest]).
Proof. now simp sstf_loop. Qed.

Lemma min_scan_split (key : Z -> Z) (l : list Z) :
  forall pre best mid,
    (forall x, In x pre -> key best < key x) ->
    (forall x, In x mid -> key best <= key x) ->
    exists before after,
      pre ++ best :: mid ++ l = before ++ Py.min_scan key best l :: after /\
      (forall x, In x before -> key (Py.min_scan key best l) < key x) /\
      (forall x, In x after -> key (Py.min_scan key best l) <= key x).
Proof.
  induction l as [|x rest IH]; intros pre best mid Hpre Hmid; simpl.
  - exists pre, mid. rewrite app_nil_r. auto.
  - destruct (Z.ltb_spec (key x) (key best)) as [Hlt|Hge].
    + destruct (IH (pre ++ best :: mid) x []) as (before & after & E & Hb & Ha).
      * intros y Hy. apply in_app_or in Hy. destruct Hy as [Hy|[<-|Hy]].
        -- specialize (Hpre y Hy). lia.
        -- lia.
        -- specialize (Hmid y Hy). lia.
      * intros y [].
      * exists before, after. split; [|auto].
        rewrite <- E. cbn [app]. now rewrite <- app_assoc.
    + destruct (IH pre best (mid ++ [x])) as (before & after & E & Hb & Ha).
      * exact Hpre.
      * intros y Hy. apply in_app_or in Hy. destruct Hy as [Hy|[<-|[]]].
        -- now apply Hmid.
        -- lia.
      * exists before, after. split; [|auto].
        rewrite <- E. now rewrite <- app_assoc.
Qed.

Lemma remove_split (c : Z) (before after : list Z) :
  (forall x, In x before -> x <> c) ->
  Py.remove c (before ++ c :: after) = before ++ after.
Proof.
  induction before as [|y before IH]; intros H; simpl.
  - now rewrite Z.eqb_refl.
  - destruct (Z.eqb_spec y c) as [->|_].
    + exfalso. apply (H c); [now left | reflexivity].
    + f_equal. apply IH. intros x Hx. apply H. now right.
Qed.

(** A list has at most one first-nearest item. *)
Lemma first_nearest_unique (p : Z) (before : list Z) :
  forall c after before' c' after',
    before ++ c :: after = before' ++ c' :: after' ->
    first_nearest p before c after -> first_nearest p before' c' after' ->
    before = before' /\ c = c' /\ after = after'.
Proof.
  induction before as [|y before IH];
    intros c after before' c' after' E [Hb Ha] [Hb' Ha'].
  - destruct before' as [|y' before'].
    + now injection E as -> ->.
    + injection E as -> ->. exfalso.
      assert (H1 : distance p c' < distance p y') by (apply Hb'; now left).
      assert (H2 : distance p y' <= distance p c').
      { apply Ha. apply in_or_app. right. now left. }
      lia.
  - destruct before' as [|y' before'].
    + injection E as -> <-. exfalso.
      assert (H1 : distance p c < distance p c') by (apply Hb; now left).
      assert (H2 : distance p c' <= distance p c).
      { apply Ha'. apply in_or_app. right. now left. }
      lia.
    + injection E as -> E.
      destruct (IH c after before' c' after' E) as (-> & -> & ->).
      * split; [|exact Ha]. intros x Hx. apply Hb. now right.
      * split; [|exact Ha']. intros x Hx. apply Hb'. now right.
      * auto.
Qed.

(** Every non-empty list has a first-nearest item: the one [min] finds. *)
Lemma min_scan_first_nearest (p r : Z) (rest : list Z) :
  exists before after,
    r :: rest = before ++ Py.min_scan (distance p) r rest :: after /\
    first_nearest p before (Py.min_scan (distance p) r rest) after.
Proof.
  destruct (min_scan_split (distance p) rest [] r [])
    as (before & after & E & Hb & Ha); try (intros x []).
  exists before, after. split; [exact E | now split].
Qed.

(** One turn of the loop of [sstf]. *)
Lemma sstf_loop_pick (p : Z) (before : list Z) (c : Z) (after seq : list Z) :
  first_nearest p before c after ->
  sstf_loop (before ++ c :: after) p seq =
  sstf_loop (before ++ after) c (seq ++ [c]).
Proof.
  intros Hc.
  destruct (before ++ c :: after) as [|r rest] eqn:E;
    [now destruct before|].
  rewrite sstf_loop_cons.
  destruct (min_scan_first_nearest p r rest) as (before' & after' & E' & Hc').
  rewrite E' in E.
  destruct (first_nearest_unique p before c after before' _ after'
              E Hc Hc') as (-> & Hcc & ->).
  rewrite <- Hcc in *. rewrite E'.
  rewrite remove_split; [reflexivity|].
  intros x Hx ->. destruct Hc as [Hb _]. specialize (Hb c Hx). lia.
Qed.

(** The loop only ever appends to the sequence it has built so far. *)
Lemma sstf_loop_appends (n : nat) :
  forall remaining p seq,
    (length remaining <= n)%nat ->
    sstf_loop remaining p seq = seq ++ sstf_loop remaining p [].
Proof.
  induction n as [|n IH]; intros remaining p seq Hn.
  - destruct remaining; [|simpl in Hn; lia].
    simp sstf_loop. now rewrite app_nil_r.
  - destruct remaining as [|r rest]; [simp sstf_loop; now rewrite app_nil_r|].
    destruct (min_scan_first_nearest p r rest) as (before & after & E & Hc).
    rewrite E, !(sstf_loop_pick p before _ after) by exact Hc.
    assert (Hlen : (length (before ++ after) <= n)%nat).
    { apply (f_equal (@length Z)) in E. rewrite length_app in *.
      simpl in *. lia. }
    rewrite (IH _ _ (seq ++ _)), (IH _ _ ([] ++ _)) by exact Hlen.
    now rewrite <- app_assoc.
Qed.

Lemma sstf_loop_nearest_first (n : nat) :
  forall remaining p,
    (length remaining <= n)%nat ->
    nearest_first p remaining (sstf_loop remaining p []).
Proof.
  induction n as [|n IH]; intros remaining p Hn.
  - destruct remaining; [|simpl in Hn; lia]. simp sstf_loop. constructor.
  - destruct remaining as [|r rest]; [simp sstf_loop; constructor|].
    destruct (min_scan_first_nearest p r rest) as (before & after & E & Hc).
    rewrite E, (sstf_loop_pick p before _ after) by exact Hc.
    assert (Hlen : (length (before ++ after) <= n)%nat).
    { apply (f_equal (@length Z)) in E. rewrite length_app in *.
      simpl in *. lia. }
    rewrite (sstf_loop_appends n) by exact Hlen. cbn [app].
    constructor; [exact Hc | now apply IH].
Qed.

Lemma nearest_first_sstf_loop (p : Z) (remaining order : list Z) :
  nearest_first p remaining order -> order = sstf_loop remaining p [].
Proof.
  induction 1 as [p|p before c after order Hc _ IH].
  - now simp sstf_loop.
  - rewrite (sstf_loop_pick p before c after) by exact Hc.
    rewrite (sstf_loop_appends (length (before ++ after))) by lia.
    cbn [app]. now rewrite IH.
Qed.

Lemma order_of_sstf (self : DiskScheduler) :
  order_of (sstf self) = sstf_loop (requests self) (initial_position self) [].
Proof.
  unfold sstf.
  now destruct (calculate_seek_time self
                  (sstf_loop (requests self) (initial_position self) [])).
Qed.

(** C4, as the code has it.  SSTF serves, again and again, a remaining
    request at minimum distance from the current head position and removes
    it from the remaining requests until none is left; among requests at
    equal distance it takes the one listed first.  On the scenario the order
    is [65,67,37,14,98,122,124,183] and the total seek time 236. *)
Theorem sstf_nearest_first (self : DiskScheduler) :
  nearest_first (initial_position self) (requests self) (order_of (sstf self)) /\
  (forall order,
      nearest_first (initial_position self) (requests self) order ->
      order = order_of (sstf self)) /\
  order_of (sstf scenario) = [65; 67; 37; 14; 98; 122; 124; 183] /\
  total_of (sstf scenario) = 236.
Proof.
  rewrite order_of_sstf. repeat split.
  - now apply (sstf_loop_nearest_first (length (requests self))).
  - apply nearest_first_sstf_loop.
Qed.

(** C4, as stated, fails: with the head at 50 and the requests [60, 40],
    both at distance 10, SSTF serves 60 first although 40 is lower. *)
Lemma sstf_tie_not_lowest_value :
  let self := {| requests := [60; 40]; initial_position := 50;
                 disk_size := 200 |} in
  order_of (sstf self) = [60; 40] /\
  lowest_nearest 50 [60; 40] 40 /\
  ~ lowest_nearest 50 [60; 40] 60.
Proof.
  split; [reflexivity|]. split.
  - split; [simpl; tauto|].
    intros x [<-|[<-|[]]]; right; unfold distance; simpl; lia.
  - intros [_ H]. specialize (H 40). unfold distance in H. simpl in H.
    destruct H as [H|[_ H]]; [tauto | lia | lia].
Qed.

(** ** Which orders are rearrangements of the requests *)

Lemma nearest_first_perm (p : Z) (remaining order : list Z) :
  nearest_first p remaining order -> Permutation order remaining.
Proof.
  induction 1 as [p|p before c after order _ _ IH]; [constructor|].
  rewrite IH. apply Permutation_middle.
Qed.

Local Ltac side :=
  first [ exact (proj1 (side_increasing _ _))
        | exact (proj1 (side_decreasing _ _)) ].

Local Ltac sides :=
  eapply sides_perm; cycle 1;
  [ side | side
  | first [apply below_not_at_or_above | apply above_not_at_or_below] ].

(** C2, as the code has it.  The orders of SSTF, LOOK and C-LOOK are
    rearrangements of the request list.  The order of SCAN is a
    rearrangement of the request list together with one edge track
    (disk_size - 1 going right, 0 going left) when some request lies on the
    far side of the initial position, and of the request list alone
    otherwise; the order of C-SCAN likewise, with both edge tracks. *)
Theorem service_orders_rearrange_requests (self : DiskScheduler)
    (direction : string) :
  Permutation (order_of (sstf self)) (requests self) /\
  Permutation (order_of (look self direction)) (requests self) /\
  Permutation (order_of (c_look self direction)) (requests self) /\
  Permutation (order_of (scan self direction))
              (scan_waypoints self direction ++ requests self) /\
  Permutation (order_of (c_scan self direction))
              (c_scan_waypoints self direction ++ requests self).
Proof.
  repeat split.
  - rewrite order_of_sstf. eapply nearest_first_perm.
    now apply (sstf_loop_nearest_first (length (requests self))).
  - rewrite look_order_shape. destruct (going_right direction); sides.
  - rewrite c_look_order_shape. destruct (going_right direction); sides.
  - rewrite order_of_scan, scan_sequence_shape. unfold scan_waypoints.
    destruct (going_right direction);
      rewrite Permutation_app_swap_app; apply Permutation_app_head; sides.
  - rewrite order_of_c_scan, c_scan_sequence_shape. unfold c_scan_waypoints.
    destruct (going_right direction);
      rewrite Permutation_app_swap_app; apply Permutation_app_head; sides.
Qed.

(** C2, as stated, fails: with the head at 50 on a disk of 200 tracks and
    the single request 10, SCAN going right visits 199 before 10. *)
Lemma scan_order_adds_edge_track :
  let self := {| requests := [10]; initial_position := 50;
                 disk_size := 200 |} in
  __init__ [10] 50 200 = Ok self /\
  order_of (scan self "right") = [199; 10] /\
  order_of (c_scan self "right") = [199; 0; 10] /\
  ~ Permutation (order_of (scan self "right")) (requests self) /\
  ~ Permutation (order_of (c_scan self "right")) (requests self).
Proof.
  repeat split; intros H; apply Permutation_length in H; discriminate H.
Qed.

(** ** A request on the edge track *)

Lemma walk_adjacent (l1 : list Z) :
  forall from a b l2, In (a, b) (walk from (l1 ++ a :: b :: l2)).
Proof.
  induction l1 as [|x l1 IH]; intros from a b l2; simpl.
  - right. now left.
  - right. apply IH.
Qed.

Lemma operations_of_scan (self : DiskScheduler) (direction : string) :
  operations_of (scan self direction) =
  walk (initial_position self) (scan_sequence self direction).
Proof. unfold scan. now rewrite calculate_seek_time_walk. Qed.

Lemma operations_of_c_scan (self : DiskScheduler) (direction : string) :
  operations_of (c_scan self direction) =
  walk (initial_position self) (c_scan_sequence self direction).
Proof. unfold c_scan. now rewrite calculate_seek_time_walk. Qed.

(** A sorted list ends with any of its items that bounds all the others. *)
Lemma sorted_ends_with_bound (R : Z -> Z -> Prop) (l : list Z) (m : Z) :
  (forall x y, R x y -> R y x -> x = y) ->
  StronglySorted R l -> In m l -> (forall x, In x l -> R x m) ->
  exists l', l = l' ++ [m].
Proof.
  intros Hanti Hsorted. induction Hsorted as [|x l Hl IH Hx]; intros Hin Hb.
  - destruct Hin.
  - assert (Hm : l = [] \/ In m l).
    { destruct l as [|y l0]; [now left | right].
      destruct Hin as [->|Hin]; [|exact Hin].
      left. apply Hanti.
      - apply Hb. right. now left.
      - rewrite Forall_forall in Hx. apply Hx. now left. }
    destruct Hm as [->|Hm].
    + destruct Hin as [->|[]]. now exists [].
    + destruct (IH Hm) as [l' ->]; [intros y Hy; apply Hb; now right|].
      now exists (x :: l').
Qed.

Lemma validate_each_inv (disk_size : Z) (reqs : list Z) :
  validate_each disk_size reqs = Ok tt -> Forall (in_range disk_size) reqs.
Proof.
  induction reqs as [|r rest IH]; simpl; [constructor|].
  destruct (Z.ltb_spec r 0) as [|Hlo]; [discriminate|].
  destruct (Z.geb_spec r disk_size) as [|Hhi]; [discriminate|]. cbn [orb].
  intros Hrest. constructor; [unfold in_range; lia | now apply IH].
Qed.

Lemma init_ok_inv (reqs : list Z) (p size : Z) (self : DiskScheduler) :
  __init__ reqs p size = Ok self ->
  self = {| requests := reqs; initial_position := p; disk_size := size |} /\
  Forall (in_range size) reqs.
Proof.
  unfold __init__, validate_requests. cbn [requests disk_size].
  destruct (validate_each size reqs) as [[]|e] eqn:E; [|discriminate].
  cbn [bind]. intros H. injection H as <-.
  split; [reflexivity | now apply validate_each_inv].
Qed.

Lemma in_side (f : Z -> bool) (l : list Z) (x : Z) :
  In x l -> f x = true -> In x (filter f (Py.sorted l)).
Proof.
  intros Hin Hf. apply filter_In. split; [|exact Hf].
  eapply Permutation_in; [symmetry; apply sorted_perm | exact Hin].
Qed.

Lemma side_in (f : Z -> bool) (l : list Z) (x : Z) :
  In x (filter f (Py.sorted l)) -> In x l.
Proof.
  intros Hx. apply filter_In in Hx. destruct Hx as [Hx _].
  eapply Permutation_in; [apply sorted_perm | exact Hx].
Qed.

(** The group served first going right ends with disk_size - 1 when that
    track is requested; going left it ends with 0 when 0 is requested. *)
Lemma right_side_ends_at_edge (reqs : list Z) (p size : Z) :
  Forall (in_range size) reqs -> p < size -> In (size - 1) reqs ->
  exists l', Py.sorted (filter (fun r => r >=? p) (Py.sorted reqs)) =
             l' ++ [size - 1].
Proof.
  intros Hv Hp Hin. rewrite Forall_forall in Hv.
  apply (sorted_ends_with_bound Z.le).
  - intros x y; lia.
  - apply sorted_ascending.
  - eapply Permutation_in; [symmetry; apply sorted_perm|].
    apply in_side; [exact Hin|]. apply Z.geb_le. lia.
  - intros x Hx.
    eapply Permutation_in in Hx; [|apply sorted_perm].
    apply side_in in Hx. specialize (Hv x Hx). unfold in_range in Hv. lia.
Qed.

Lemma left_side_ends_at_zero (reqs : list Z) (p size : Z) :
  Forall (in_range size) reqs -> 0 <= p -> In 0 reqs ->
  exists l', Py.sorted_reverse (filter (fun r => r <=? p) (Py.sorted reqs)) =
             l' ++ [0].
Proof.
  intros Hv Hp Hin. rewrite Forall_forall in Hv.
  apply (sorted_ends_with_bound Z.ge).
  - intros x y; lia.
  - apply sorted_reverse_descending.
  - eapply Permutation_in; [symmetry; apply sorted_reverse_perm|].
    apply in_side; [exact Hin|]. apply Z.leb_le. lia.
  - intros x Hx.
    eapply Permutation_in in Hx; [|apply sorted_reverse_perm].
    apply side_in in Hx. specialize (Hv x Hx). unfold in_range in Hv. lia.
Qed.

(** A sorted list starts with any of its items that comes before all the
    others in the order. *)
Lemma sorted_starts_with_bound (R : Z -> Z -> Prop) (l : list Z) (m : Z) :
  (forall x y, R x y -> R y x -> x = y) ->
  StronglySorted R l -> In m l -> (forall x, In x l -> R m x) ->
  exists l', l = m :: l'.
Proof.
  intros Hanti Hsorted Hin Hb.
  destruct l as [|x l]; [destruct Hin|].
  exists l. f_equal.
  destruct Hin as [->|Hin]; [reflexivity|].
  apply StronglySorted_inv in Hsorted. destruct Hsorted as [_ Hx].
  rewrite Forall_forall in Hx.
  apply Hanti; [now apply Hx | apply Hb; now left].
Qed.

(** With the head beyond the edge every request is on the far side, and the
    group served after the waypoint starts at the requested edge track. *)
Lemma left_side_starts_at_edge (reqs : list Z) (p size : Z) :
  Forall (in_range size) reqs -> size <= p -> In (size - 1) reqs ->
  Py.sorted (filter (fun r => r >=? p) (Py.sorted reqs)) = [] /\
  exists l', Py.sorted_reverse (filter (fun r => r <? p) (Py.sorted reqs)) =
             (size - 1) :: l'.
Proof.
  intros Hv Hp Hin. rewrite Forall_forall in Hv. split.
  - destruct (Py.sorted (filter (fun r => r >=? p) (Py.sorted reqs)))
      as [|x l] eqn:E; [reflexivity|].
    assert (Hx : In x (Py.sorted (filter (fun r => r >=? p) (Py.sorted reqs))))
      by (rewrite E; now left).
    eapply Permutation_in in Hx; [|apply sorted_perm].
    apply filter_In in Hx. destruct Hx as [Hx Hge]. apply Z.geb_le in Hge.
    eapply Permutation_in in Hx; [|apply sorted_perm].
    specialize (Hv x Hx). unfold in_range in Hv. lia.
  - apply (sorted_starts_with_bound Z.ge).
    + intros x y; lia.
    + apply sorted_reverse_descending.
    + eapply Permutation_in; [symmetry; apply sorted_reverse_perm|].
      apply in_side; [exact Hin|]. apply Z.ltb_lt. lia.
    + intros x Hx.
      eapply Permutation_in in Hx; [|apply sorted_reverse_perm].
      apply side_in in Hx. specialize (Hv x Hx). unfold in_range in Hv. lia.
Qed.

Lemma right_side_starts_at_zero (reqs : list Z) (p size : Z) :
  Forall (in_range size) reqs -> p < 0 -> In 0 reqs ->
  Py.sorted_reverse (filter (fun r => r <=? p) (Py.sorted reqs)) = [] /\
  exists l', Py.sorted (filter (fun r => r >? p) (Py.sorted reqs)) = 0 :: l'.
Proof.
  intros Hv Hp Hin. rewrite Forall_forall in Hv. split.
  - destruct (Py.sorted_reverse (filter (fun r => r <=? p) (Py.sorted reqs)))
      as [|x l] eqn:E; [reflexivity|].
    assert (Hx : In x (Py.sorted_reverse
                         (filter (fun r => r <=? p) (Py.sorted reqs))))
      by (rewrite E; now left).
    eapply Permutation_in in Hx; [|apply sorted_reverse_perm].
    apply filter_In in Hx. destruct Hx as [Hx Hle]. apply Z.leb_le in Hle.
    eapply Permutation_in in Hx; [|apply sorted_perm].
    specialize (Hv x Hx). unfold in_range in Hv. lia.
  - apply (sorted_starts_with_bound Z.le).
    + intros x y; lia.
    + apply sorted_ascending.
    + eapply Permutation_in; [symmetry; apply sorted_perm|].
      apply in_side; [exact Hin|]. apply Z.gtb_lt. lia.
    + intros x Hx.
      eapply Permutation_in in Hx; [|apply sorted_perm].
      apply side_in in Hx. specialize (Hv x Hx). unfold in_range in Hv. lia.
Qed.

(** C10, as the code has it.  On a constructed scheduler, going right, when
    some request lies below the initial position and the edge track
    disk_size - 1 is itself requested, the order of SCAN holds
    disk_size - 1 twice in a row, which gives a head movement
    (disk_size - 1, disk_size - 1) of distance zero, and so does the order
    of C-SCAN when the initial position is below disk_size; going left the
    same happens with track 0 when 0 is requested and some request lies
    above the initial position, for C-SCAN when the initial position is not
    negative. *)
Theorem edge_request_served_twice (reqs : list Z) (p size : Z)
    (self : DiskScheduler) :
  __init__ reqs p size = Ok self ->
  (In (size - 1) reqs -> (exists r, In r reqs /\ r < p) ->
   served_twice_in_a_row (size - 1) (scan self "right") /\
   (p < size -> served_twice_in_a_row (size - 1) (c_scan self "right"))) /\
  (In 0 reqs -> (exists r, In r reqs /\ p < r) ->
   served_twice_in_a_row 0 (scan self "left") /\
   (0 <= p -> served_twice_in_a_row 0 (c_scan self "left"))) /\
  seek_distance (size - 1, size - 1) = 0 /\ seek_distance (0, 0) = 0.
Proof.
  intros Hinit.
  destruct (init_ok_inv _ _ _ _ Hinit) as [-> Hv].
  split; [|split; [|split; unfold seek_distance; simpl; lia]].
  - intros Hedge (r & Hr & Hrp).
    assert (Hex : existsb (fun r => r <? p) reqs = true).
    { apply existsb_exists. exists r. split; [exact Hr|]. now apply Z.ltb_lt. }
    unfold served_twice_in_a_row.
    rewrite order_of_scan, operations_of_scan, order_of_c_scan,
      operations_of_c_scan, scan_sequence_shape, c_scan_sequence_shape,
      going_right_right.
    cbn [requests initial_position disk_size]. rewrite Hex.
    assert (Hcase : p < size \/ size <= p) by lia.
    destruct Hcase as [Hp|Hp].
    + destruct (right_side_ends_at_edge reqs p size Hv Hp Hedge) as [l' El'].
      rewrite El'. rewrite <- !app_assoc. cbn [app].
      repeat split; try apply walk_adjacent; eexists _, _; reflexivity.
    + destruct (left_side_starts_at_edge reqs p size Hv Hp Hedge)
        as [-> [l' ->]].
      split; [|intros Hlt; lia]. cbn [app].
      split; [exists [], l'; reflexivity|].
      apply (walk_adjacent [] p).
  - intros Hedge (r & Hr & Hrp).
    assert (Hex : existsb (fun r => r >? p) reqs = true).
    { apply existsb_exists. exists r. split; [exact Hr|].
      apply Z.gtb_lt. lia. }
    unfold served_twice_in_a_row.
    rewrite order_of_scan, operations_of_scan, order_of_c_scan,
      operations_of_c_scan, scan_sequence_shape, c_scan_sequence_shape,
      going_right_left.
    cbn [requests initial_position disk_size]. rewrite Hex.
    assert (Hcase : 0 <= p \/ p < 0) by lia.
    destruct Hcase as [Hp|Hp].
    + destruct (left_side_ends_at_zero reqs p size Hv Hp Hedge) as [l' El'].
      rewrite El'. rewrite <- !app_assoc. cbn [app].
      repeat split; try apply walk_adjacent; eexists _, _; reflexivity.
    + destruct (right_side_starts_at_zero reqs p size Hv Hp Hedge)
        as [-> [l' ->]].
      split; [|intros Hge; lia]. cbn [app].
      split; [exists [], l'; reflexivity|].
      apply (walk_adjacent [] p).
Qed.

Lemma edge_request_served_twice_witness :
  let self := {| requests := [199; 10; 0; 120]; initial_position := 50;
                 disk_size := 200 |} in
  served_twice_in_a_row 199 (scan self "right") /\
  served_twice_in_a_row 199 (c_scan self "right") /\
  served_twice_in_a_row 0 (scan self "left") /\
  served_twice_in_a_row 0 (c_scan self "left").
Proof.
  intros self.
  destruct (edge_request_served_twice [199; 10; 0; 120] 50 200 self)
    as (Hright & Hleft & _).
  - reflexivity.
  - destruct Hright as [H1 H2].
    + simpl. tauto.
    + exists 10. simpl. split; [tauto | lia].
    + destruct Hleft as [H3 H4].
      * simpl. tauto.
      * exists 120. simpl. split; [tauto | lia].
      * split; [exact H1|]. split; [apply H2; lia|].
        split; [exact H3 | apply H4; lia].
Defined.

(** C10, as stated, fails for C-SCAN when the head starts off the disk,
    which the constructor allows: with the requests [199, 10] on 200 tracks
    and the head at 300, a request lies below the head and 199 is requested,
    yet C-SCAN going right visits 199, 0, 10, 199, and no movement goes
    from 199 to 199.  SCAN does repeat the edge track there. *)
Lemma c_scan_edge_not_repeated_off_disk :
  let self := {| requests := [199; 10]; initial_position := 300;
                 disk_size := 200 |} in
  __init__ [199; 10] 300 200 = Ok self /\
  In (200 - 1) (requests self) /\
  (exists r, In r (requests self) /\ r < initial_position self) /\
  order_of (c_scan self "right") = [199; 0; 10; 199] /\
  ~ served_twice_in_a_row (200 - 1) (c_scan self "right") /\
  order_of (scan self "right") = [199; 199; 10].
Proof.
  intros self. split; [reflexivity|]. split; [simpl; tauto|].
  split; [exists 10; simpl; split; [tauto | lia]|].
  split; [reflexivity|]. split; [|reflexivity].
  intros [_ Hin]. vm_compute in Hin.
  repeat (destruct Hin as [Hin|Hin]; [discriminate Hin|]). exact Hin.
Qed.

(** ** Algorithm names *)

Lemma ascii_leb_code (a b : ascii) :
  (a <=? b)%char = (N_of_ascii a <=? N_of_ascii b)%N.
Proof.
  unfold Ascii.leb, Ascii.compare, N.leb.
  now destruct (N_of_ascii a ?= N_of_ascii b)%N.
Qed.

Lemma is_lower_code (c : ascii) :
  Py.is_lower c = ((97 <=? N_of_ascii c) && (N_of_ascii c <=? 122))%N.
Proof. unfold Py.is_lower. now rewrite !ascii_leb_code. Qed.

Lemma is_upper_code (c : ascii) :
  Py.is_upper c = ((65 <=? N_of_ascii c) && (N_of_ascii c <=? 90))%N.
Proof. unfold Py.is_upper. now rewrite !ascii_leb_code. Qed.

Lemma upper_char_code (c : ascii) :
  N_of_ascii (Py.upper_char c) =
  if Py.is_lower c then (N_of_ascii c - 32)%N else N_of_ascii c.
Proof.
  unfold Py.upper_char. destruct (Py.is_lower c); [|reflexivity].
  apply N_ascii_embedding. pose proof (N_ascii_bounded c). lia.
Qed.

Lemma code_inj (a b : ascii) : N_of_ascii a = N_of_ascii b -> a = b.
Proof.
  intros H. rewrite <- (ascii_N_embedding a), <- (ascii_N_embedding b).
  now rewrite H.
Qed.

Local Ltac codes :=
  repeat match goal with
  | |- context [(?x <=? ?y)%N] => destruct (N.leb_spec x y)
  | H : context [(?x <=? ?y)%N] |- _ => destruct (N.leb_spec x y)
  end; cbn [andb orb] in *.

Lemma same_letter_upper (a b : ascii) :
  same_letter a b <-> Py.upper_char a = Py.upper_char b.
Proof.
  split.
  - intros [->|(Ha & Hb & Hab)]; [reflexivity|].
    apply code_inj. rewrite !upper_char_code.
    unfold letter in Ha, Hb. rewrite !is_lower_code, !is_upper_code in *.
    codes; try discriminate; lia.
  - intros H. apply (f_equal N_of_ascii) in H. rewrite !upper_char_code in H.
    unfold same_letter, letter. rewrite !is_lower_code, !is_upper_code in *.
    codes; try (left; apply code_inj; lia); right; repeat split; lia.
Qed.

Lemma same_ignoring_case_upper (s t : string) :
  same_ignoring_case s t <-> Py.upper_ascii s = Py.upper_ascii t.
Proof.
  split.
  - induction 1 as [|a b s t Hab _ IH]; [reflexivity|].
    simpl. apply same_letter_upper in Hab. now rewrite Hab, IH.
  - revert t; induction s as [|a s IH]; intros [|b t] H;
      try discriminate; [constructor|].
    simpl in H. injection H as Hab Hst.
    constructor; [now apply same_letter_upper | now apply IH].
Qed.

Lemma supported_names_upper (n : string) :
  In n supported_names -> Py.upper_ascii n = n.
Proof.
  unfold supported_names. simpl.
  intros H; repeat (destruct H as [<-|H]; [reflexivity|]); destruct H.
Qed.

Lemma supported_names_isascii (n : string) :
  In n supported_names -> isascii n = true.
Proof.
  unfold supported_names. simpl.
  intros H; repeat (destruct H as [<-|H]; [reflexivity|]); destruct H.
Qed.

Lemma recognised_upper_ascii (name : string) :
  recognised name <-> In (Py.upper_ascii name) supported_names.
Proof.
  split.
  - intros (n & Hn & Hsame). apply same_ignoring_case_upper in Hsame.
    rewrite Hsame, supported_names_upper; assumption.
  - intros H. exists (Py.upper_ascii name). split; [exact H|].
    apply same_ignoring_case_upper. symmetry.
    now apply supported_names_upper.
Qed.

(** On ASCII text [str.upper] works byte by byte. *)
Lemma assoc_above (bound cp : N) (table : list (N * list N)) :
  forallb (fun kv => (bound <=? fst kv)%N) table = true ->
  (cp < bound)%N -> Py.assoc cp table = None.
Proof.
  intros Ht Hcp. induction table as [|[k v] table IH]; [reflexivity|].
  simpl in Ht. apply andb_prop in Ht. destruct Ht as [Hk Ht].
  apply N.leb_le in Hk. simpl.
  destruct (N.eqb_spec k cp) as [->|_]; [lia | now apply IH].
Qed.

Lemma upper_table_above_ascii :
  forallb (fun kv => (128 <=? fst kv)%N) Py.upper_table = true.
Proof. vm_compute. reflexivity. Qed.

Lemma encode_app (l1 l2 : list N) :
  Py.encode (l1 ++ l2) = (Py.encode l1 ++ Py.encode l2)%string.
Proof.
  induction l1 as [|cp l1 IH]; [reflexivity|].
  cbn [app Py.encode]. rewrite IH.
  induction (Py.encode_point cp) as [|c e IHe]; [reflexivity|].
  cbn [String.append]. now rewrite IHe.
Qed.

Lemma upper_point_ascii (c : ascii) :
  (N_of_ascii c < 128)%N ->
  Py.encode (Py.upper_point (N_of_ascii c)) =
  String (Py.upper_char c) EmptyString.
Proof.
  intros Hc. unfold Py.upper_point, Py.upper_char.
  rewrite is_lower_code.
  destruct ((97 <=? N_of_ascii c) && (N_of_ascii c <=? 122))%N eqn:E.
  - cbn [Py.encode]. unfold Py.encode_point.
    replace (N_of_ascii c - 32 <? 128)%N with true
      by (symmetry; apply N.ltb_lt; lia).
    reflexivity.
  - rewrite (assoc_above 128 _ _ upper_table_above_ascii Hc).
    cbn [Py.encode]. unfold Py.encode_point.
    replace (N_of_ascii c <? 128)%N with true
      by (symmetry; now apply N.ltb_lt).
    unfold Py.bytes. cbn [map string_of_list_ascii String.append].
    now rewrite ascii_N_embedding.
Qed.

Lemma upper_on_ascii (s : string) :
  isascii s = true -> Py.upper s = Py.upper_ascii s.
Proof.
  unfold Py.upper, isascii.
  induction s as [|c s IH]; [reflexivity|].
  cbn [list_ascii_of_string forallb]. intros H.
  apply andb_prop in H. destruct H as [Hc Hs].
  cbn [Py.decode]. rewrite Hc. cbn [flat_map].
  rewrite encode_app, (IH Hs), upper_point_ascii by now apply N.ltb_lt.
  reflexivity.
Qed.

Lemma same_letter_ascii (a b : ascii) :
  same_letter a b -> (N_of_ascii b <? 128)%N = true ->
  (N_of_ascii a <? 128)%N = true.
Proof.
  intros [->|(Ha & _ & _)] Hb; [exact Hb|].
  unfold letter in Ha. rewrite is_lower_code, is_upper_code in Ha.
  apply N.ltb_lt. codes; try discriminate; lia.
Qed.

Lemma same_ignoring_case_isascii (s t : string) :
  same_ignoring_case s t -> isascii t = true -> isascii s = true.
Proof.
  unfold isascii. induction 1 as [|a b s t Hab _ IH]; [reflexivity|].
  cbn [list_ascii_of_string forallb]. intros H.
  apply andb_prop in H. destruct H as [Hb Ht].
  now rewrite (same_letter_ascii a b Hab Hb), IH.
Qed.

Lemma recognised_isascii (name : string) :
  recognised name -> isascii name = true.
Proof.
  intros (n & Hn & Hsame).
  eapply same_ignoring_case_isascii; [exact Hsame|].
  now apply supported_names_isascii.
Qed.

(** The dispatcher accepts every name that is a supported name up to case,
    and among ASCII names no other. *)
Lemma recognised_accepted (name : string) :
  recognised name -> In (Py.upper name) supported_names.
Proof.
  intros H. rewrite upper_on_ascii by now apply recognised_isascii.
  now apply recognised_upper_ascii.
Qed.

Lemma accepted_ascii_recognised (name : string) :
  isascii name = true ->
  In (Py.upper name) supported_names -> recognised name.
Proof.
  intros Ha H. rewrite upper_on_ascii in H by exact Ha.
  now apply recognised_upper_ascii.
Qed.

Lemma dispatch_known (self : DiskScheduler) (u direction : string) :
  In u supported_names ->
  exists o, dispatch self u direction = Ok o /\ policy_outcome self direction o.
Proof.
  unfold supported_names, policy_outcome. simpl.
  intros H; repeat (destruct H as [<-|H]; [eexists; split; [reflexivity|tauto]|]).
  destruct H.
Qed.

Lemma dispatch_unknown (self : DiskScheduler) (u direction : string) :
  ~ In u supported_names ->
  dispatch self u direction = Raise (UnknownAlgorithm u).
Proof.
  intros H. unfold dispatch.
  repeat match goal with
  | |- context [(u =? ?n)%string] =>
      destruct (String.eqb_spec u n) as [->|_];
      [exfalso; apply H; unfold supported_names; simpl; tauto|]
  end.
  reflexivity.
Qed.

Lemma accepted_dec (name : string) :
  In (Py.upper name) supported_names \/ ~ In (Py.upper name) supported_names.
Proof.
  destruct (in_dec string_dec (Py.upper name) supported_names); tauto.
Qed.

Lemma policy_outcome_empty (self : DiskScheduler) (direction : string)
    (o : outcome) :
  requests self = [] -> policy_outcome self direction o -> o = ([], 0, []).
Proof.
  intros He [-> | [-> | [-> | [-> | [-> | ->]]]]].
  - unfold fcfs. now rewrite He.
  - unfold sstf. rewrite He. now simp sstf_loop.
  - unfold scan, scan_sequence. rewrite He.
    now destruct (going_right direction).
  - unfold c_scan, c_scan_sequence. rewrite He.
    now destruct (going_right direction).
  - unfold look. now rewrite He.
  - unfold c_look. now rewrite He.
Qed.

Section SimulateFacts.

Context {float : Type} (true_div : Z -> Z -> float) (round2 : float -> float).

(** The record [simulate] builds from the outcome of a policy. *)
Definition record_of (self : DiskScheduler) (name : string) (o : outcome)
  : simulation float :=
  {| algorithm := Py.upper name;
     sequence := order_of o;
     total_seek_time := total_of o;
     average_seek_time :=
       match order_of o with
       | [] => Int 0
       | _ :: _ =>
           Float (round2 (true_div (total_of o)
                                   (Z.of_nat (length (order_of o)))))
       end;
     seek_operations := operations_of o;
     total_requests := Z.of_nat (length (requests self));
     initial_position' := initial_position self |}.

Lemma simulate_dispatch (self : DiskScheduler) (name direction : string)
    (o : outcome) :
  dispatch self (Py.upper name) direction = Ok o ->
  simulate true_div round2 self name direction =
  if average_overflows o then Raise OverflowError
  else Ok (record_of self name o).
Proof.
  intros H. unfold simulate. rewrite H. cbn [bind].
  destruct o as [[seq total] ops].
  unfold average_overflows, record_of, order_of, total_of, operations_of.
  cbn [fst snd]. destruct seq as [|t seq]; [reflexivity|].
  unfold py_true_div.
  destruct (Z.eqb_spec (Z.of_nat (length (t :: seq))) 0) as [E|_];
    [simpl in E; lia|].
  now destruct (true_div_overflows total (Z.of_nat (length (t :: seq)))).
Qed.

(** What [simulate] does on a name the dispatcher accepts, and on any
    other. *)
Lemma simulate_accepted (self : DiskScheduler) (name direction : string) :
  In (Py.upper name) supported_names ->
  exists o,
    policy_outcome self direction o /\
    simulate true_div round2 self name direction =
    if average_overflows o then Raise OverflowError
    else Ok (record_of self name o).
Proof.
  intros Hname.
  destruct (dispatch_known self _ direction Hname) as (o & Ho & Hpol).
  exists o. split; [exact Hpol | now apply simulate_dispatch].
Qed.

Lemma simulate_refused (self : DiskScheduler) (name direction : string) :
  ~ In (Py.upper name) supported_names ->
  simulate true_div round2 self name direction =
  Raise (UnknownAlgorithm (Py.upper name)).
Proof.
  intros Hname. unfold simulate.
  now rewrite (dispatch_unknown _ _ _ Hname).
Qed.

End SimulateFacts.

(** * Further properties of the scheduler *)

(** The same scheduler with the head placed at [p]. *)
Definition head_at (p : Z) (self : DiskScheduler) : DiskScheduler :=
  {| requests := requests self;
     initial_position := p;
     disk_size := disk_size self |}.

(** The outcome a policy reports for the sequence it has built. *)
Definition outcome_for (self : DiskScheduler) (sequence : list Z) : outcome :=
  (sequence,
   fst (calculate_seek_time self sequence),
   snd (calculate_seek_time self sequence)).

(** The greatest, respectively least, item of a list. *)
Definition greatest_of (l : list Z) (m : Z) : Prop :=
  In m l /\ forall x, In x l -> x <= m.
Definition least_of (l : list Z) (m : Z) : Prop :=
  In m l /\ forall x, In x l -> m <= x.

(** ** Walks *)

Lemma last_cons_default (x : Z) (l : list Z) (d : Z) :
  last (x :: l) d = last l x.
Proof.
  revert x d; induction l as [|y l IH]; intros x d; [reflexivity|].
  change (last (x :: y :: l) d) with (last (y :: l) d).
  now rewrite !IH.
Qed.

Lemma walk_app (l1 : list Z) :
  forall p l2, walk p (l1 ++ l2) = walk p l1 ++ walk (last l1 p) l2.
Proof.
  induction l1 as [|x l1 IH]; intros p l2; [reflexivity|].
  cbn [app walk]. now rewrite IH, last_cons_default.
Qed.

Lemma sum_distances_app (ops1 ops2 : list (Z * Z)) :
  sum_distances (ops1 ++ ops2) = sum_distances ops1 + sum_distances ops2.
Proof.
  induction ops1 as [|op ops1 IH]; [reflexivity|].
  cbn [app]. unfold sum_distances in *. cbn [fold_right]. rewrite IH. lia.
Qed.

Lemma sum_distances_cons (p t : Z) (ops : list (Z * Z)) :
  sum_distances ((p, t) :: ops) = Z.abs (t - p) + sum_distances ops.
Proof. reflexivity. Qed.

Lemma walk_total_app (l1 l2 : list Z) (p : Z) :
  sum_distances (walk p (l1 ++ l2)) =
  sum_distances (walk p l1) + sum_distances (walk (last l1 p) l2).
Proof. now rewrite walk_app, sum_distances_app. Qed.

Lemma walk_total_nonneg (l : list Z) :
  forall p, 0 <= sum_distances (walk p l).
Proof.
  induction l as [|x l IH]; intros p; cbn [walk]; [reflexivity|].
  rewrite sum_distances_cons. specialize (IH x). lia.
Qed.

(** A walk is at least as long as the straight way to where it ends. *)
Lemma walk_total_reach (l : list Z) :
  forall p, Z.abs (last l p - p) <= sum_distances (walk p l).
Proof.
  induction l as [|x l IH]; intros p.
  - simpl. lia.
  - rewrite last_cons_default. cbn [walk]. rewrite sum_distances_cons.
    specialize (IH x). lia.
Qed.

(** Starting a walk elsewhere costs at most the way to the new start. *)
Lemma walk_total_restart (l : list Z) (p q : Z) :
  sum_distances (walk p l) <= Z.abs (q - p) + sum_distances (walk q l).
Proof.
  destruct l as [|x l]; cbn [walk].
  - simpl. lia.
  - rewrite !sum_distances_cons. lia.
Qed.

(** Visiting extra tracks on the way never shortens a walk. *)
Lemma walk_total_detour (l1 w l2 : list Z) (p : Z) :
  sum_distances (walk p (l1 ++ l2)) <= sum_distances (walk p (l1 ++ w ++ l2)).
Proof.
  rewrite !walk_total_app.
  pose proof (walk_total_restart l2 (last l1 p) (last w (last l1 p))).
  pose proof (walk_total_reach w (last l1 p)). lia.
Qed.

Lemma calculate_seek_time_outcome (self : DiskScheduler) (sequence : list Z) :
  (let '(total_seek_time, seek_operations) :=
     calculate_seek_time self sequence in
   (sequence, total_seek_time, seek_operations)) = outcome_for self sequence.
Proof.
  unfold outcome_for. now destruct (calculate_seek_time self sequence).
Qed.

(** ** Seek-time accounting, continued *)

(** X1.  The cost of a sequence made of two parts is the cost of the first part
    plus the cost of the second part walked from where the first one ends,
    and the operations are those of the two parts in a row. *)
Theorem calculate_seek_time_app (self : DiskScheduler) (s1 s2 : list Z) :
  let self' := head_at (last s1 (initial_position self)) self in
  fst (calculate_seek_time self (s1 ++ s2)) =
    fst (calculate_seek_time self s1) + fst (calculate_seek_time self' s2) /\
  snd (calculate_seek_time self (s1 ++ s2)) =
    snd (calculate_seek_time self s1) ++ snd (calculate_seek_time self' s2).
Proof.
  intros self'. rewrite !calculate_seek_time_walk. cbn [fst snd].
  unfold self', head_at. cbn [initial_position].
  split; [apply walk_total_app | apply walk_app].
Qed.

(** X2.  The total seek time is never negative, and it is at least the distance
    from the initial head position to any track of the sequence. *)
Theorem seek_total_lower_bound (self : DiskScheduler) (sequence : list Z) :
  let total := fst (calculate_seek_time self sequence) in
  0 <= total /\
  forall t, In t sequence -> Z.abs (t - initial_position self) <= total.
Proof.
  rewrite calculate_seek_time_walk. cbn [fst].
  split; [apply walk_total_nonneg|].
  intros t Ht. apply in_split in Ht. destruct Ht as (l1 & l2 & ->).
  change (l1 ++ t :: l2) with (l1 ++ [t] ++ l2).
  rewrite app_assoc, walk_total_app.
  pose proof (walk_total_reach (l1 ++ [t]) (initial_position self)) as H.
  rewrite last_last in H.
  pose proof (walk_total_nonneg l2 (last (l1 ++ [t]) (initial_position self))).
  lia.
Qed.

Lemma fcfs_outcome (self : DiskScheduler) :
  fcfs self = outcome_for self (requests self).
Proof. apply calculate_seek_time_outcome. Qed.

Lemma sstf_outcome (self : DiskScheduler) :
  sstf self =
  outcome_for self (sstf_loop (requests self) (initial_position self) []).
Proof. apply calculate_seek_time_outcome. Qed.

Lemma scan_outcome (self : DiskScheduler) (direction : string) :
  scan self direction = outcome_for self (scan_sequence self direction).
Proof. apply calculate_seek_time_outcome. Qed.

Lemma c_scan_outcome (self : DiskScheduler) (direction : string) :
  c_scan self direction = outcome_for self (c_scan_sequence self direction).
Proof. apply calculate_seek_time_outcome. Qed.

Lemma look_outcome (self : DiskScheduler) (direction : string) :
  look self direction = outcome_for self (order_of (look self direction)).
Proof.
  unfold look. destruct (Py.sorted (requests self)) as [|r0 sreqs'];
    [reflexivity|].
  cbv zeta. rewrite calculate_seek_time_outcome. reflexivity.
Qed.

Lemma c_look_outcome (self : DiskScheduler) (direction : string) :
  c_look self direction = outcome_for self (order_of (c_look self direction)).
Proof.
  unfold c_look. destruct (Py.sorted (requests self)) as [|r0 sreqs'];
    [reflexivity|].
  cbv zeta. rewrite calculate_seek_time_outcome. reflexivity.
Qed.

Lemma policy_outcome_for (self : DiskScheduler) (direction : string)
    (o : outcome) :
  policy_outcome self direction o -> o = outcome_for self (order_of o).
Proof.
  intros [-> | [-> | [-> | [-> | [-> | ->]]]]].
  - now rewrite fcfs_outcome.
  - now rewrite sstf_outcome.
  - now rewrite scan_outcome.
  - now rewrite c_scan_outcome.
  - apply look_outcome.
  - apply c_look_outcome.
Qed.

(** X3.  Whatever the policy, the total and the operations it reports are those
    [calculate_seek_time] gives for the order it reports, also on the early
    return of LOOK and C-LOOK. *)
Theorem policies_share_accounting (self : DiskScheduler) (direction : string) :
  Forall
    (fun o => (total_of o, operations_of o) =
              calculate_seek_time self (order_of o))
    [fcfs self; sstf self; scan self direction; c_scan self direction;
     look self direction; c_look self direction].
Proof.
  repeat constructor;
    match goal with
    | |- (total_of ?o, _) = _ =>
        rewrite (policy_outcome_for self direction o)
          by (unfold policy_outcome; tauto)
    end;
    unfold outcome_for, total_of, operations_of, order_of; cbn [fst snd];
    now destruct (calculate_seek_time self _).
Qed.

Section RecordFacts.

Context {float : Type} (true_div : Z -> Z -> float) (round2 : float -> float).

Lemma simulate_ok_inv (self : DiskScheduler) (name direction : string)
    (r : simulation float) :
  simulate true_div round2 self name direction = Ok r ->
  exists o,
    policy_outcome self direction o /\
    sequence r = order_of o /\ total_seek_time r = total_of o /\
    seek_operations r = operations_of o /\
    algorithm r = Py.upper name /\
    total_requests r = Z.of_nat (length (requests self)) /\
    initial_position' r = initial_position self.
Proof.
  intros H. destruct (accepted_dec name) as [Hname|Hname].
  - destruct (simulate_accepted true_div round2 self name direction Hname)
      as (o & Hpol & Hsim).
    rewrite Hsim in H. destruct (average_overflows o); [discriminate|].
    injection H as <-. exists o. cbn. tauto.
  - rewrite (simulate_refused true_div round2 self name direction Hname) in H.
    discriminate.
Qed.

(** X4.  Every record [simulate] returns is consistent: its total is the sum of
    the distances of its operations and is not negative, it has one
    operation per track of its sequence, each arriving at that track, and
    the first operation leaves from the initial position it echoes. *)
Theorem simulate_record_consistent (self : DiskScheduler)
    (name direction : string) (r : simulation float) :
  simulate true_div round2 self name direction = Ok r ->
  total_seek_time r = sum_distances (seek_operations r) /\
  0 <= total_seek_time r /\
  length (seek_operations r) = length (sequence r) /\
  map snd (seek_operations r) = sequence r /\
  seek_operations r = walk (initial_position' r) (sequence r).
Proof.
  intros H.
  destruct (simulate_ok_inv _ _ _ _ H) as (o & Hpol & -> & -> & -> & _ & _ & ->).
  rewrite (policy_outcome_for _ _ _ Hpol).
  unfold outcome_for, order_of, total_of, operations_of. cbn [fst snd].
  rewrite calculate_seek_time_walk. cbn [fst snd].
  repeat split.
  - apply walk_total_nonneg.
  - apply walk_length.
  - apply walk_targets.
Qed.

End RecordFacts.

Lemma simulate_record_consistent_witness :
  exists r,
    simulate Quotient Rounded2 scenario "scan" "right" = Ok r /\
    total_seek_time r = sum_distances (seek_operations r) /\
    total_seek_time r = 331.
Proof.
  assert (H : exists r,
             simulate Quotient Rounded2 scenario "scan" "right" = Ok r /\
             total_seek_time r = 331) by (eexists; split; reflexivity).
  destruct H as (r & Hr & Ht). exists r. split; [exact Hr|].
  split; [|exact Ht].
  exact (proj1 (simulate_record_consistent Quotient Rounded2 scenario
                  "scan" "right" r Hr)).
Defined.

(** ** Sorted lists *)

Lemma sorted_unique (R : Z -> Z -> Prop) (l1 : list Z) :
  (forall x y, R x y -> R y x -> x = y) ->
  forall l2,
    StronglySorted R l1 -> StronglySorted R l2 -> Permutation l1 l2 ->
    l1 = l2.
Proof.
  intros Hanti. induction l1 as [|x l1 IH]; intros l2 H1 H2 HP.
  - now apply Permutation_nil in HP.
  - destruct l2 as [|y l2];
      [symmetry in HP; now apply Permutation_nil in HP|].
    apply StronglySorted_inv in H1. destruct H1 as [H1 Hx].
    apply StronglySorted_inv in H2. destruct H2 as [H2 Hy].
    rewrite Forall_forall in Hx, Hy.
    assert (Exy : x = y).
    { assert (Hxin : In x (y :: l2))
        by (eapply Permutation_in; [exact HP | now left]).
      assert (Hyin : In y (x :: l1))
        by (eapply Permutation_in; [symmetry; exact HP | now left]).
      destruct Hxin as [->|Hxin]; [reflexivity|].
      destruct Hyin as [->|Hyin]; [reflexivity|].
      apply Hanti; [now apply Hx | now apply Hy]. }
    subst y. f_equal. apply IH; try assumption.
    now apply Permutation_cons_inv in HP.
Qed.

Lemma StronglySorted_filter (R : Z -> Z -> Prop) (f : Z -> bool) (l : list Z) :
  StronglySorted R l -> StronglySorted R (filter f l).
Proof.
  induction 1 as [|x l _ IH Hx]; simpl; [constructor|].
  destruct (f x); [|exact IH].
  constructor; [exact IH|].
  rewrite Forall_forall in *. intros y Hy. apply filter_In in Hy.
  now apply Hx.
Qed.

Lemma StronglySorted_snoc (R : Z -> Z -> Prop) (l : list Z) (x : Z) :
  StronglySorted R l -> Forall (fun y => R y x) l ->
  StronglySorted R (l ++ [x]).
Proof.
  induction 1 as [|y l _ IH Hy]; intros Hx; simpl.
  - repeat constructor.
  - apply Forall_cons_iff in Hx. destruct Hx as [Hyx Hx].
    constructor; [now apply IH|].
    apply Forall_app. split; [exact Hy | now constructor].
Qed.

Lemma ascending_rev (l : list Z) : ascending l -> descending (rev l).
Proof.
  induction 1 as [|x l _ IH Hx]; simpl; [constructor|].
  apply StronglySorted_snoc; [exact IH|].
  apply Forall_rev. eapply Forall_impl; [|exact Hx]. intros y; lia.
Qed.

Lemma ascending_unique (l1 l2 : list Z) :
  ascending l1 -> ascending l2 -> Permutation l1 l2 -> l1 = l2.
Proof. apply sorted_unique. intros x y; lia. Qed.

Lemma descending_unique (l1 l2 : list Z) :
  descending l1 -> descending l2 -> Permutation l1 l2 -> l1 = l2.
Proof. apply sorted_unique. intros x y; lia. Qed.

Lemma sorted_side (f : Z -> bool) (l : list Z) :
  Py.sorted (filter f (Py.sorted l)) = filter f (Py.sorted l).
Proof.
  apply ascending_unique.
  - apply sorted_ascending.
  - apply StronglySorted_filter, sorted_ascending.
  - apply sorted_perm.
Qed.

Lemma sorted_reverse_side (f : Z -> bool) (l : list Z) :
  Py.sorted_reverse (filter f (Py.sorted l)) = rev (filter f (Py.sorted l)).
Proof.
  apply descending_unique.
  - apply sorted_reverse_descending.
  - apply ascending_rev, StronglySorted_filter, sorted_ascending.
  - rewrite sorted_reverse_perm. apply Permutation_rev.
Qed.

(** X5.  The directional policies sort each side again after taking it out of
    the sorted requests; this second sort changes nothing: the side is
    already in increasing order, and sorting it in reverse is reversing it. *)
Theorem sorting_a_side_again (self : DiskScheduler) (f : Z -> bool) :
  let side := filter f (Py.sorted (requests self)) in
  increasing_order_of (filter f (requests self)) side /\
  Py.sorted side = side /\
  Py.sorted_reverse side = rev side.
Proof.
  intros side. split; [|split].
  - split; [apply filter_perm, sorted_perm|].
    apply StronglySorted_filter, sorted_ascending.
  - apply sorted_side.
  - apply sorted_reverse_side.
Qed.

(** ** LOOK and C-LOOK *)

(** X6.  LOOK going right serves the requests at or above the initial position
    in increasing order, then those below it in decreasing order; going
    left, those at or below it in decreasing order, then those above it in
    increasing order.  No edge track is added. *)
Theorem look_service_order (self : DiskScheduler) :
  let p := initial_position self in
  let reqs := requests self in
  (exists ahead behind,
      increasing_order_of (filter (fun r => r >=? p) reqs) ahead /\
      decreasing_order_of (filter (fun r => r <? p) reqs) behind /\
      order_of (look self "right") = ahead ++ behind) /\
  (exists behind ahead,
      decreasing_order_of (filter (fun r => r <=? p) reqs) behind /\
      increasing_order_of (filter (fun r => r >? p) reqs) ahead /\
      order_of (look self "left") = behind ++ ahead).
Proof.
  intros p reqs. split.
  - exists (Py.sorted (filter (fun r => r >=? p) (Py.sorted reqs))),
           (Py.sorted_reverse (filter (fun r => r <? p) (Py.sorted reqs))).
    split; [apply side_increasing|]. split; [apply side_decreasing|].
    now rewrite look_order_shape, going_right_right.
  - exists (Py.sorted_reverse (filter (fun r => r <=? p) (Py.sorted reqs))),
           (Py.sorted (filter (fun r => r >? p) (Py.sorted reqs))).
    split; [apply side_decreasing|]. split; [apply side_increasing|].
    now rewrite look_order_shape, going_right_left.
Qed.

(** X7.  C-LOOK going right serves the requests at or above the initial position
    in increasing order, then those below it in increasing order as well;
    going left both groups are served in decreasing order.  No edge track
    is added. *)
Theorem c_look_service_order (self : DiskScheduler) :
  let p := initial_position self in
  let reqs := requests self in
  (exists ahead wrapped,
      increasing_order_of (filter (fun r => r >=? p) reqs) ahead /\
      increasing_order_of (filter (fun r => r <? p) reqs) wrapped /\
      order_of (c_look self "right") = ahead ++ wrapped) /\
  (exists behind wrapped,
      decreasing_order_of (filter (fun r => r <=? p) reqs) behind /\
      decreasing_order_of (filter (fun r => r >? p) reqs) wrapped /\
      order_of (c_look self "left") = behind ++ wrapped).
Proof.
  intros p reqs. split.
  - exists (Py.sorted (filter (fun r => r >=? p) (Py.sorted reqs))),
           (Py.sorted (filter (fun r => r <? p) (Py.sorted reqs))).
    split; [apply side_increasing|]. split; [apply side_increasing|].
    now rewrite c_look_order_shape, going_right_right.
  - exists (Py.sorted_reverse (filter (fun r => r <=? p) (Py.sorted reqs))),
           (Py.sorted_reverse (filter (fun r => r >? p) (Py.sorted reqs))).
    split; [apply side_decreasing|]. split; [apply side_decreasing|].
    now rewrite c_look_order_shape, going_right_left.
Qed.

Lemma total_of_outcome_for (self : DiskScheduler) (sequence : list Z) :
  total_of (outcome_for self sequence) =
  sum_distances (walk (initial_position self) sequence).
Proof.
  unfold outcome_for, total_of. cbn [fst snd].
  now rewrite calculate_seek_time_walk.
Qed.

Lemma total_of_scan (self : DiskScheduler) (direction : string) :
  total_of (scan self direction) =
  sum_distances (walk (initial_position self) (scan_sequence self direction)).
Proof. now rewrite scan_outcome, total_of_outcome_for. Qed.

Lemma total_of_c_scan (self : DiskScheduler) (direction : string) :
  total_of (c_scan self direction) =
  sum_distances (walk (initial_position self) (c_scan_sequence self direction)).
Proof. now rewrite c_scan_outcome, total_of_outcome_for. Qed.

Lemma total_of_look (self : DiskScheduler) (direction : string) :
  total_of (look self direction) =
  sum_distances (walk (initial_position self)
                      (order_of (look self direction))).
Proof. now rewrite look_outcome at 1; rewrite total_of_outcome_for. Qed.

Lemma total_of_c_look (self : DiskScheduler) (direction : string) :
  total_of (c_look self direction) =
  sum_distances (walk (initial_position self)
                      (order_of (c_look self direction))).
Proof. now rewrite c_look_outcome at 1; rewrite total_of_outcome_for. Qed.

(** X8.  For the same input and direction, LOOK never travels farther than
    SCAN, nor C-LOOK than C-SCAN: the edge policies walk the same order with
    the edge tracks put in between. *)
Theorem look_no_farther_than_scan (self : DiskScheduler) (direction : string) :
  total_of (look self direction) <= total_of (scan self direction) /\
  total_of (c_look self direction) <= total_of (c_scan self direction).
Proof.
  rewrite total_of_look, total_of_scan, total_of_c_look, total_of_c_scan.
  rewrite look_order_shape, c_look_order_shape, scan_sequence_shape,
    c_scan_sequence_shape.
  destruct (going_right direction); split; apply walk_total_detour.
Qed.

(** ** The tracks a policy visits *)

Lemma in_sorted_side (f : Z -> bool) (l : list Z) (x : Z) :
  In x (Py.sorted (filter f (Py.sorted l))) <-> In x l /\ f x = true.
Proof.
  rewrite <- filter_In. split; apply Permutation_in.
  - apply side_increasing.
  - symmetry. apply side_increasing.
Qed.

Lemma in_sorted_reverse_side (f : Z -> bool) (l : list Z) (x : Z) :
  In x (Py.sorted_reverse (filter f (Py.sorted l))) <-> In x l /\ f x = true.
Proof.
  rewrite <- filter_In. split; apply Permutation_in.
  - apply side_decreasing.
  - symmetry. apply side_decreasing.
Qed.

Lemma existsb_nonempty (f : Z -> bool) (l : list Z) :
  existsb f l = true -> l <> [].
Proof. now destruct l. Qed.

Local Ltac visited :=
  repeat match goal with
  | H : In _ (_ ++ _) |- _ => apply in_app_or in H; destruct H as [H|H]
  | H : In _ (Py.sorted (filter _ (Py.sorted _))) |- _ =>
      apply in_sorted_side in H; destruct H as [H _]
  | H : In _ (Py.sorted_reverse (filter _ (Py.sorted _))) |- _ =>
      apply in_sorted_reverse_side in H; destruct H as [H _]
  | H : In _ (if existsb ?f ?l then _ else _) |- _ =>
      let E := fresh "E" in
      destruct (existsb f l) eqn:E;
      [apply existsb_nonempty in E; simpl in H | destruct H]
  end.

(** A policy only visits requested tracks, and SCAN and C-SCAN the two edge
    tracks besides, which they visit only when there is a request. *)
Lemma policy_visits (self : DiskScheduler) (direction : string) (o : outcome)
    (t : Z) :
  policy_outcome self direction o -> In t (order_of o) ->
  In t (requests self) \/
  (requests self <> [] /\ (t = 0 \/ t = disk_size self - 1)).
Proof.
  intros [-> | [-> | [-> | [-> | [-> | ->]]]]] Ht.
  - rewrite fcfs_outcome in Ht. now left.
  - rewrite order_of_sstf in Ht. left.
    eapply Permutation_in; [|exact Ht].
    eapply nearest_first_perm.
    now apply (sstf_loop_nearest_first (length (requests self))).
  - rewrite order_of_scan, scan_sequence_shape in Ht.
    destruct (going_right direction); visited; intuition.
  - rewrite order_of_c_scan, c_scan_sequence_shape in Ht.
    destruct (going_right direction); visited; intuition.
  - rewrite look_order_shape in Ht.
    destruct (going_right direction); visited; intuition.
  - rewrite c_look_order_shape in Ht.
    destruct (going_right direction); visited; intuition.
Qed.

(** X9.  On a scheduler that was constructed, no policy ever sends the head off
    the disk: every track of a service order is a request, or one of the two
    edge tracks, and lies in [0, disk_size). *)
Theorem tracks_stay_on_disk (reqs : list Z) (p size : Z)
    (self : DiskScheduler) (direction : string) (o : outcome) :
  __init__ reqs p size = Ok self ->
  policy_outcome self direction o ->
  Forall (in_range size) (order_of o) /\
  Forall (fun t => In t reqs \/ t = 0 \/ t = size - 1) (order_of o).
Proof.
  intros Hinit Hpol.
  destruct (init_ok_inv _ _ _ _ Hinit) as [-> Hv].
  rewrite Forall_forall in Hv.
  split; apply Forall_forall; intros t Ht;
    destruct (policy_visits _ _ _ t Hpol Ht) as [Hr|[Hne Hedge]];
    cbn [requests disk_size] in *.
  - now apply Hv.
  - destruct reqs as [|r reqs]; [now destruct Hne|].
    assert (Hr : in_range size r) by (apply Hv; now left).
    unfold in_range in *. lia.
  - now left.
  - right. exact Hedge.
Qed.

Lemma tracks_stay_on_disk_witness :
  Forall (in_range 200) (order_of (c_scan scenario "right")).
Proof.
  exact (proj1 (tracks_stay_on_disk [98; 183; 37; 122; 14; 124; 65; 67] 53 200
                  scenario "right" (c_scan scenario "right") eq_refl
                  (or_intror (or_intror (or_intror (or_introl eq_refl)))))).
Defined.

(** ** Requests on one side of the head *)

Lemma filter_all (f : Z -> bool) (l : list Z) :
  (forall x, In x l -> f x = true) -> filter f l = l.
Proof.
  intros H. apply forallb_filter_id. now apply forallb_forall.
Qed.

Lemma side_all (f : Z -> bool) (l : list Z) :
  (forall x, In x l -> f x = true) ->
  Py.sorted (filter f (Py.sorted l)) = Py.sorted l /\
  Py.sorted_reverse (filter f (Py.sorted l)) = Py.sorted_reverse l.
Proof.
  intros H. rewrite filter_all.
  - split.
    + apply ascending_unique; try apply sorted_ascending.
      now rewrite !sorted_perm.
    + apply descending_unique; try apply sorted_reverse_descending.
      now rewrite !sorted_reverse_perm, sorted_perm.
  - intros x Hx. apply H. eapply Permutation_in; [apply sorted_perm | exact Hx].
Qed.

Lemma side_none (f : Z -> bool) (l : list Z) :
  (forall x, In x l -> f x = false) ->
  filter f (Py.sorted l) = [] /\ existsb f l = false.
Proof.
  intros H.
  assert (Hex : existsb f l = false).
  { destruct (existsb f l) eqn:E; [|reflexivity].
    apply existsb_exists in E. destruct E as (x & Hx & Hfx).
    rewrite (H x Hx) in Hfx. discriminate. }
  split; [|exact Hex].
  pose proof (side_empty f l) as Hs.
  destruct (filter f (Py.sorted l)); [reflexivity | congruence].
Qed.

Lemma nearest_first_ascending (p : Z) (remaining order : list Z) :
  nearest_first p remaining order ->
  (forall x, In x remaining -> p <= x) -> ascending order.
Proof.
  induction 1 as [p|p before c after order [Hb Ha] Hrest IH]; intros Hp.
  - constructor.
  - assert (Hc : p <= c) by (apply Hp, in_or_app; right; now left).
    assert (Hle : forall x, In x (before ++ after) -> c <= x).
    { intros x Hx. assert (Hpx : p <= x).
      { apply Hp. apply in_app_or in Hx. apply in_or_app.
        destruct Hx; [now left | right; now right]. }
      apply in_app_or in Hx. unfold distance in *.
      destruct Hx as [Hx|Hx]; [specialize (Hb x Hx) | specialize (Ha x Hx)];
        lia. }
    constructor; [now apply IH|].
    apply Forall_forall. intros x Hx. apply Hle.
    eapply Permutation_in; [apply (nearest_first_perm _ _ _ Hrest) | exact Hx].
Qed.

Lemma nearest_first_descending (p : Z) (remaining order : list Z) :
  nearest_first p remaining order ->
  (forall x, In x remaining -> x <= p) -> descending order.
Proof.
  induction 1 as [p|p before c after order [Hb Ha] Hrest IH]; intros Hp.
  - constructor.
  - assert (Hc : c <= p) by (apply Hp, in_or_app; right; now left).
    assert (Hle : forall x, In x (before ++ after) -> x <= c).
    { intros x Hx. assert (Hpx : x <= p).
      { apply Hp. apply in_app_or in Hx. apply in_or_app.
        destruct Hx; [now left | right; now right]. }
      apply in_app_or in Hx. unfold distance in *.
      destruct Hx as [Hx|Hx]; [specialize (Hb x Hx) | specialize (Ha x Hx)];
        lia. }
    constructor; [now apply IH|].
    apply Forall_forall. intros x Hx.
    assert (Hin : In x (before ++ after))
      by (eapply Permutation_in;
          [apply (nearest_first_perm _ _ _ Hrest) | exact Hx]).
    specialize (Hle x Hin). lia.
Qed.

(** A monotone walk costs the distance between its two ends. *)
Lemma walk_up_total (l : list Z) :
  forall p, ascending l -> (forall x, In x l -> p <= x) ->
            sum_distances (walk p l) = last l p - p.
Proof.
  induction l as [|x l IH]; intros p Hs Hp; [simpl; lia|].
  apply StronglySorted_inv in Hs. destruct Hs as [Hs Hx].
  rewrite Forall_forall in Hx.
  cbn [walk]. rewrite sum_distances_cons, last_cons_default, IH by auto.
  specialize (Hp x (or_introl eq_refl)). lia.
Qed.

Lemma walk_down_total (l : list Z) :
  forall p, descending l -> (forall x, In x l -> x <= p) ->
            sum_distances (walk p l) = p - last l p.
Proof.
  induction l as [|x l IH]; intros p Hs Hp; [simpl; lia|].
  apply StronglySorted_inv in Hs. destruct Hs as [Hs Hx].
  rewrite Forall_forall in Hx.
  cbn [walk]. rewrite sum_distances_cons, last_cons_default, IH.
  - specialize (Hp x (or_introl eq_refl)). lia.
  - exact Hs.
  - intros y Hy. specialize (Hx y Hy). lia.
Qed.

Lemma last_of_ascending (l : list Z) (m d : Z) :
  ascending l -> greatest_of l m -> last l d = m.
Proof.
  intros Hs [Hin Hm].
  destruct (sorted_ends_with_bound Z.le l m) as [l' ->]; try assumption.
  - intros x y; lia.
  - apply last_last.
Qed.

Lemma last_of_descending (l : list Z) (m d : Z) :
  descending l -> least_of l m -> last l d = m.
Proof.
  intros Hs [Hin Hm].
  destruct (sorted_ends_with_bound Z.ge l m) as [l' ->]; try assumption.
  - intros x y; lia.
  - intros x Hx. specialize (Hm x Hx). lia.
  - apply last_last.
Qed.

Lemma greatest_of_perm (l l' : list Z) (m : Z) :
  Permutation l l' -> greatest_of l m -> greatest_of l' m.
Proof.
  intros HP [Hin Hm]. split; [now apply (Permutation_in _ HP)|].
  intros x Hx. apply Hm. symmetry in HP. now apply (Permutation_in _ HP).
Qed.

Lemma least_of_perm (l l' : list Z) (m : Z) :
  Permutation l l' -> least_of l m -> least_of l' m.
Proof.
  intros HP [Hin Hm]. split; [now apply (Permutation_in _ HP)|].
  intros x Hx. apply Hm. symmetry in HP. now apply (Permutation_in _ HP).
Qed.

(** X10.  When every request lies at or above the initial position and the
    direction is right, SSTF, SCAN, C-SCAN, LOOK and C-LOOK all return the
    same outcome: the requests in increasing order, no edge track, and a
    total equal to the highest request minus the initial position. *)
Theorem one_sided_sweep_right (self : DiskScheduler) (direction : string)
    (highest : Z) :
  going_right direction = true ->
  (forall r, In r (requests self) -> initial_position self <= r) ->
  greatest_of (requests self) highest ->
  let o := outcome_for self (Py.sorted (requests self)) in
  sstf self = o /\ scan self direction = o /\ c_scan self direction = o /\
  look self direction = o /\ c_look self direction = o /\
  increasing_order_of (requests self) (order_of o) /\
  total_of o = highest - initial_position self.
Proof.
  intros Hd Hp Hmax o. set (p := initial_position self) in *.
  destruct (side_all (fun r => r >=? p) (requests self)) as [Hall _].
  { intros x Hx. apply Z.geb_le. now apply Hp. }
  destruct (side_none (fun r => r <? p) (requests self)) as [Hnone Hex].
  { intros x Hx. apply Z.ltb_ge. now apply Hp. }
  repeat split.
  - rewrite sstf_outcome. unfold o. f_equal.
    apply ascending_unique; [|apply sorted_ascending|].
    + eapply nearest_first_ascending; [|exact Hp].
      now apply (sstf_loop_nearest_first (length (requests self))).
    + rewrite sorted_perm. eapply nearest_first_perm.
      now apply (sstf_loop_nearest_first (length (requests self))).
  - rewrite scan_outcome, scan_sequence_shape, Hd. fold p.
    rewrite Hall, Hnone, Hex. cbn [app]. now rewrite app_nil_r.
  - rewrite c_scan_outcome, c_scan_sequence_shape, Hd. fold p.
    rewrite Hall, Hnone, Hex. cbn [app]. now rewrite app_nil_r.
  - rewrite look_outcome, look_order_shape, Hd. fold p.
    rewrite Hall, Hnone. cbn [app]. now rewrite app_nil_r.
  - rewrite c_look_outcome, c_look_order_shape, Hd. fold p.
    rewrite Hall, Hnone. cbn [app]. now rewrite app_nil_r.
  - apply sorted_perm.
  - apply sorted_ascending.
  - unfold o. rewrite total_of_outcome_for. fold p.
    rewrite walk_up_total.
    + f_equal. apply last_of_ascending; [apply sorted_ascending|].
      eapply greatest_of_perm; [symmetry; apply sorted_perm | exact Hmax].
    + apply sorted_ascending.
    + intros x Hx. apply Hp.
      eapply Permutation_in; [apply sorted_perm | exact Hx].
Qed.

Lemma one_sided_sweep_right_witness :
  let self := {| requests := [70; 55; 90; 55]; initial_position := 50;
                 disk_size := 100 |} in
  sstf self = look self "Right" /\ total_of (scan self "Right") = 40.
Proof.
  intros self.
  destruct (one_sided_sweep_right self "Right" 90) as (H1 & H2 & _ & H4 & _ & _ & H7).
  - reflexivity.
  - intros r Hr; simpl in Hr.
    repeat (destruct Hr as [<-|Hr]; [simpl; lia|]); destruct Hr.
  - split; [simpl; tauto|]. intros r Hr; simpl in Hr.
    repeat (destruct Hr as [<-|Hr]; [lia|]); destruct Hr.
  - split; [now rewrite H1, H4 | now rewrite H2, H7].
Defined.

(** X11.  When every request lies at or below the initial position and the
    direction is not right, the five policies again return one outcome: the
    requests in decreasing order, and a total equal to the initial position
    minus the lowest request. *)
Theorem one_sided_sweep_left (self : DiskScheduler) (direction : string)
    (lowest : Z) :
  going_right direction = false ->
  (forall r, In r (requests self) -> r <= initial_position self) ->
  least_of (requests self) lowest ->
  let o := outcome_for self (Py.sorted_reverse (requests self)) in
  sstf self = o /\ scan self direction = o /\ c_scan self direction = o /\
  look self direction = o /\ c_look self direction = o /\
  decreasing_order_of (requests self) (order_of o) /\
  total_of o = initial_position self - lowest.
Proof.
  intros Hd Hp Hmin o. set (p := initial_position self) in *.
  destruct (side_all (fun r => r <=? p) (requests self)) as [_ Hall].
  { intros x Hx. apply Z.leb_le. now apply Hp. }
  destruct (side_none (fun r => r >? p) (requests self)) as [Hnone Hex].
  { intros x Hx. specialize (Hp x Hx).
    destruct (Z.gtb_spec x p); [lia | reflexivity]. }
  repeat split.
  - rewrite sstf_outcome. unfold o. f_equal.
    apply descending_unique; [|apply sorted_reverse_descending|].
    + eapply nearest_first_descending; [|exact Hp].
      now apply (sstf_loop_nearest_first (length (requests self))).
    + rewrite sorted_reverse_perm. eapply nearest_first_perm.
      now apply (sstf_loop_nearest_first (length (requests self))).
  - rewrite scan_outcome, scan_sequence_shape, Hd. fold p.
    rewrite Hall, Hnone, Hex. cbn [app]. now rewrite app_nil_r.
  - rewrite c_scan_outcome, c_scan_sequence_shape, Hd. fold p.
    rewrite Hall, Hnone, Hex. cbn [app]. now rewrite app_nil_r.
  - rewrite look_outcome, look_order_shape, Hd. fold p.
    rewrite Hall, Hnone. cbn [app]. now rewrite app_nil_r.
  - rewrite c_look_outcome, c_look_order_shape, Hd. fold p.
    rewrite Hall, Hnone. cbn [app]. now rewrite app_nil_r.
  - apply sorted_reverse_perm.
  - apply sorted_reverse_descending.
  - unfold o. rewrite total_of_outcome_for. fold p.
    rewrite walk_down_total.
    + f_equal. apply last_of_descending; [apply sorted_reverse_descending|].
      eapply least_of_perm; [symmetry; apply sorted_reverse_perm | exact Hmin].
    + apply sorted_reverse_descending.
    + intros x Hx. apply Hp.
      eapply Permutation_in; [apply sorted_reverse_perm | exact Hx].
Qed.

Lemma one_sided_sweep_left_witness :
  let self := {| requests := [30; 45; 10; 45]; initial_position := 50;
                 disk_size := 100 |} in
  sstf self = c_look self "left" /\ total_of (c_scan self "left") = 40.
Proof.
  intros self.
  destruct (one_sided_sweep_left self "left" 10) as (H1 & _ & H3 & _ & H5 & _ & H7).
  - reflexivity.
  - intros r Hr; simpl in Hr.
    repeat (destruct Hr as [<-|Hr]; [simpl; lia|]); destruct Hr.
  - split; [simpl; tauto|]. intros r Hr; simpl in Hr.
    repeat (destruct Hr as [<-|Hr]; [lia|]); destruct Hr.
  - split; [now rewrite H1, H5 | now rewrite H3, H7].
Defined.

(** ** Total seek time in closed form *)

Lemma last_in_or_default (l : list Z) (d : Z) :
  last l d = d \/ In (last l d) l.
Proof.
  destruct l as [|x l] using rev_ind; [now left | right].
  rewrite last_last. apply in_or_app. right. now left.
Qed.

Lemma walk_total_cons (p t : Z) (l : list Z) :
  sum_distances (walk p (t :: l)) = Z.abs (t - p) + sum_distances (walk t l).
Proof. reflexivity. Qed.

Lemma existsb_request (f : Z -> bool) (l : list Z) (x : Z) :
  In x l -> f x = true -> existsb f l = true.
Proof. intros Hx Hf. apply existsb_exists. now exists x. Qed.

(** The four groups of a directional policy, with the head at [p]. *)
Section Groups.

Variables (reqs : list Z) (p : Z).

Let ahead_up := Py.sorted (filter (fun r => r >=? p) (Py.sorted reqs)).
Let below_down := Py.sorted_reverse (filter (fun r => r <? p) (Py.sorted reqs)).
Let below_up := Py.sorted (filter (fun r => r <? p) (Py.sorted reqs)).
Let behind_down := Py.sorted_reverse (filter (fun r => r <=? p) (Py.sorted reqs)).
Let above_up := Py.sorted (filter (fun r => r >? p) (Py.sorted reqs)).
Let above_down := Py.sorted_reverse (filter (fun r => r >? p) (Py.sorted reqs)).

Lemma in_ahead_up (x : Z) : In x ahead_up <-> In x reqs /\ p <= x.
Proof. unfold ahead_up. now rewrite in_sorted_side, Z.geb_le. Qed.

Lemma in_below_down (x : Z) : In x below_down <-> In x reqs /\ x < p.
Proof. unfold below_down. now rewrite in_sorted_reverse_side, Z.ltb_lt. Qed.

Lemma in_below_up (x : Z) : In x below_up <-> In x reqs /\ x < p.
Proof. unfold below_up. now rewrite in_sorted_side, Z.ltb_lt. Qed.

Lemma in_behind_down (x : Z) : In x behind_down <-> In x reqs /\ x <= p.
Proof. unfold behind_down. now rewrite in_sorted_reverse_side, Z.leb_le. Qed.

Lemma in_above_up (x : Z) : In x above_up <-> In x reqs /\ p < x.
Proof. unfold above_up. now rewrite in_sorted_side, Z.gtb_ltb, Z.ltb_lt. Qed.

Lemma in_above_down (x : Z) : In x above_down <-> In x reqs /\ p < x.
Proof.
  unfold above_down. now rewrite in_sorted_reverse_side, Z.gtb_ltb, Z.ltb_lt.
Qed.

(** Going up through the requests at or above [p], from [p]. *)
Lemma ahead_up_total :
  sum_distances (walk p ahead_up) = last ahead_up p - p /\
  p <= last ahead_up p /\
  (last ahead_up p = p \/ In (last ahead_up p) reqs).
Proof.
  assert (H : last ahead_up p = p \/ In (last ahead_up p) ahead_up)
    by apply last_in_or_default.
  split; [|split].
  - apply walk_up_total; [apply sorted_ascending|].
    intros x Hx. now apply in_ahead_up in Hx.
  - destruct H as [->|H]; [lia | now apply in_ahead_up in H].
  - destruct H as [H|H]; [now left | right; now apply in_ahead_up in H].
Qed.

(** Going down through the requests at or below [p], from [p]. *)
Lemma behind_down_total :
  sum_distances (walk p behind_down) = p - last behind_down p /\
  last behind_down p <= p /\
  (last behind_down p = p \/ In (last behind_down p) reqs).
Proof.
  assert (H : last behind_down p = p \/ In (last behind_down p) behind_down)
    by apply last_in_or_default.
  split; [|split].
  - apply walk_down_total; [apply sorted_reverse_descending|].
    intros x Hx. now apply in_behind_down in Hx.
  - destruct H as [->|H]; [lia | now apply in_behind_down in H].
  - destruct H as [H|H]; [now left | right; now apply in_behind_down in H].
Qed.

(** Going down through the requests below [p], from [q] above them all, to
    the lowest request [m]. *)
Lemma below_down_total (q m : Z) :
  least_of reqs m -> m < p ->
  (forall x, In x reqs -> x < p -> x <= q) ->
  sum_distances (walk q below_down) = q - m.
Proof.
  intros [Hin Hm] Hmp Hq.
  rewrite walk_down_total.
  - f_equal. apply last_of_descending; [apply sorted_reverse_descending|].
    split; [now apply in_below_down|].
    intros x Hx. apply in_below_down in Hx. now apply Hm.
  - apply sorted_reverse_descending.
  - intros x Hx. apply in_below_down in Hx. now apply Hq.
Qed.

(** Going up through the requests below [p], from [q] under them all, to
    the highest of them, [b]. *)
Lemma below_up_total (q b : Z) :
  greatest_of (filter (fun r => r <? p) reqs) b ->
  (forall x, In x reqs -> x < p -> q <= x) ->
  sum_distances (walk q below_up) = b - q.
Proof.
  intros [Hin Hb] Hq.
  rewrite walk_up_total.
  - f_equal. apply last_of_ascending; [apply sorted_ascending|].
    split.
    + apply in_below_up. apply filter_In in Hin.
      now rewrite Z.ltb_lt in Hin.
    + intros x Hx. apply Hb. apply in_below_up in Hx.
      apply filter_In. now rewrite Z.ltb_lt.
  - apply sorted_ascending.
  - intros x Hx. apply in_below_up in Hx. now apply Hq.
Qed.

(** Going up through the requests above [p], from [q] under them all, to
    the highest request [M]. *)
Lemma above_up_total (q M : Z) :
  greatest_of reqs M -> p < M ->
  (forall x, In x reqs -> p < x -> q <= x) ->
  sum_distances (walk q above_up) = M - q.
Proof.
  intros [Hin HM] HpM Hq.
  rewrite walk_up_total.
  - f_equal. apply last_of_ascending; [apply sorted_ascending|].
    split; [now apply in_above_up|].
    intros x Hx. apply in_above_up in Hx. now apply HM.
  - apply sorted_ascending.
  - intros x Hx. apply in_above_up in Hx. now apply Hq.
Qed.

(** Going down through the requests above [p], from [q] above them all, to
    the lowest of them, [a]. *)
Lemma above_down_total (q a : Z) :
  least_of (filter (fun r => r >? p) reqs) a ->
  (forall x, In x reqs -> p < x -> x <= q) ->
  sum_distances (walk q above_down) = q - a.
Proof.
  intros [Hin Ha] Hq.
  rewrite walk_down_total.
  - f_equal. apply last_of_descending; [apply sorted_reverse_descending|].
    split.
    + apply in_above_down. apply filter_In in Hin.
      now rewrite Z.gtb_ltb, Z.ltb_lt in Hin.
    + intros x Hx. apply Ha. apply in_above_down in Hx.
      apply filter_In. now rewrite Z.gtb_ltb, Z.ltb_lt.
  - apply sorted_reverse_descending.
  - intros x Hx. apply in_above_down in Hx. now apply Hq.
Qed.

End Groups.

(** Reaching a sorted group from outside: the way to its first item, then
    the way through it. *)
Lemma walk_jump_up (l : list Z) (q m b : Z) :
  ascending l -> least_of l m -> greatest_of l b ->
  sum_distances (walk q l) = Z.abs (m - q) + (b - m).
Proof.
  intros Hs [Hm Hmin] Hb.
  destruct l as [|x l]; [destruct Hm|].
  rewrite walk_total_cons.
  pose proof (last_of_ascending _ _ q Hs Hb) as Hlast.
  rewrite last_cons_default in Hlast.
  apply StronglySorted_inv in Hs. destruct Hs as [Hs Hx].
  rewrite Forall_forall in Hx.
  assert (Exm : x = m).
  { specialize (Hmin x (or_introl eq_refl)).
    destruct Hm as [->|Hm]; [reflexivity|]. specialize (Hx m Hm). lia. }
  subst x. rewrite walk_up_total, Hlast; [reflexivity | exact Hs | exact Hx].
Qed.

Lemma walk_jump_down (l : list Z) (q top a : Z) :
  descending l -> greatest_of l top -> least_of l a ->
  sum_distances (walk q l) = Z.abs (top - q) + (top - a).
Proof.
  intros Hs [Ht Hmax] Ha.
  destruct l as [|x l]; [destruct Ht|].
  rewrite walk_total_cons.
  pose proof (last_of_descending _ _ q Hs Ha) as Hlast.
  rewrite last_cons_default in Hlast.
  apply StronglySorted_inv in Hs. destruct Hs as [Hs Hx].
  rewrite Forall_forall in Hx.
  assert (Ext : x = top).
  { specialize (Hmax x (or_introl eq_refl)).
    destruct Ht as [->|Ht]; [reflexivity|]. specialize (Hx top Ht). lia. }
  subst x. rewrite walk_down_total, Hlast; [reflexivity | exact Hs |].
  intros y Hy. specialize (Hx y Hy). lia.
Qed.

(** X12.  SCAN on a constructed scheduler with the head on the disk.  Going
    right with a request below the head, the head travels up to the edge
    disk_size - 1 and down to the lowest request; going left with a request
    above the head, it travels down to track 0 and up to the highest
    request. *)
Theorem scan_total (reqs : list Z) (p size : Z) (self : DiskScheduler)
    (direction : string) :
  __init__ reqs p size = Ok self -> in_range size p ->
  (going_right direction = true ->
   forall lowest, least_of reqs lowest -> lowest < p ->
     total_of (scan self direction) = (size - 1 - p) + (size - 1 - lowest)) /\
  (going_right direction = false ->
   forall highest, greatest_of reqs highest -> p < highest ->
     total_of (scan self direction) = p + highest).
Proof.
  intros Hinit [Hp0 Hp].
  destruct (init_ok_inv _ _ _ _ Hinit) as [-> Hv].
  rewrite Forall_forall in Hv. unfold in_range in Hv.
  split; intros Hd m Hm Hmp;
    rewrite total_of_scan, scan_sequence_shape, Hd;
    cbn [requests initial_position disk_size];
    rewrite (existsb_request _ reqs m (proj1 Hm))
      by (first [now apply Z.ltb_lt | apply Z.gtb_lt; lia]);
    rewrite walk_total_app; cbn [app]; rewrite walk_total_cons.
  - destruct (ahead_up_total reqs p) as (HA & HAle & HAin). rewrite HA.
    rewrite (below_down_total reqs p (size - 1) m Hm Hmp)
      by (intros x Hx _; specialize (Hv x Hx); lia).
    destruct HAin as [HAin|HAin]; [|specialize (Hv _ HAin)]; lia.
  - destruct (behind_down_total reqs p) as (HB & HBle & HBin). rewrite HB.
    rewrite (above_up_total reqs p 0 m Hm Hmp)
      by (intros x Hx _; specialize (Hv x Hx); lia).
    destruct HBin as [HBin|HBin]; [|specialize (Hv _ HBin)]; lia.
Qed.

Local Ltac items :=
  unfold least_of, greatest_of, scenario; cbn; split;
  [ tauto
  | let x := fresh "x" in
    let Hx := fresh "Hx" in
    intros x Hx; repeat (destruct Hx as [<-|Hx]; [lia|]); destruct Hx ].

Lemma scan_total_witness :
  total_of (scan scenario "right") = 331 /\
  total_of (scan scenario "left") = 236.
Proof.
  assert (Hp : in_range 200 53) by (unfold in_range; lia).
  split.
  - apply (proj1 (scan_total (requests scenario) 53 200 scenario "right"
                    eq_refl Hp)
             eq_refl 14); [items | lia].
  - apply (proj2 (scan_total (requests scenario) 53 200 scenario "left"
                    eq_refl Hp)
             eq_refl 183); [items | lia].
Defined.

(** X13.  C-SCAN on a constructed scheduler with the head on the disk.  Going
    right with a request below the head, the head travels up to the edge,
    across the whole disk to track 0, and up to the highest request below
    its starting point; going left with a request above the head, down to
    track 0, across to the edge, and down to the lowest request above its
    starting point. *)
Theorem c_scan_total (reqs : list Z) (p size : Z) (self : DiskScheduler)
    (direction : string) :
  __init__ reqs p size = Ok self -> in_range size p ->
  (going_right direction = true ->
   forall b, greatest_of (filter (fun r => r <? p) reqs) b ->
     total_of (c_scan self direction) = (size - 1 - p) + (size - 1) + b) /\
  (going_right direction = false ->
   forall a, least_of (filter (fun r => r >? p) reqs) a ->
     total_of (c_scan self direction) = p + (size - 1) + (size - 1 - a)).
Proof.
  intros Hinit [Hp0 Hp].
  destruct (init_ok_inv _ _ _ _ Hinit) as [-> Hv].
  rewrite Forall_forall in Hv. unfold in_range in Hv.
  split; intros Hd m Hm;
    pose proof (proj1 Hm) as Hin; apply filter_In in Hin;
    destruct Hin as [Hin Hside];
    rewrite total_of_c_scan, c_scan_sequence_shape, Hd;
    cbn [requests initial_position disk_size];
    rewrite (existsb_request _ reqs m Hin Hside);
    rewrite walk_total_app; cbn [app]; rewrite !walk_total_cons.
  - destruct (ahead_up_total reqs p) as (HA & HAle & HAin). rewrite HA.
    rewrite (below_up_total reqs p 0 m Hm)
      by (intros x Hx _; specialize (Hv x Hx); lia).
    destruct HAin as [HAin|HAin]; [|specialize (Hv _ HAin)]; lia.
  - destruct (behind_down_total reqs p) as (HB & HBle & HBin). rewrite HB.
    rewrite (above_down_total reqs p (size - 1) m Hm)
      by (intros x Hx _; specialize (Hv x Hx); lia).
    destruct HBin as [HBin|HBin]; [|specialize (Hv _ HBin)]; lia.
Qed.

Lemma c_scan_total_witness :
  total_of (c_scan scenario "right") = 382 /\
  total_of (c_scan scenario "left") = 386.
Proof.
  assert (Hp : in_range 200 53) by (unfold in_range; lia).
  split.
  - apply (proj1 (c_scan_total (requests scenario) 53 200 scenario "right"
                    eq_refl Hp)
             eq_refl 37); items.
  - apply (proj2 (c_scan_total (requests scenario) 53 200 scenario "left"
                    eq_refl Hp)
             eq_refl 65); items.
Defined.

(** X14.  LOOK with requests on both sides of the head.  Going right, the head
    travels up to the highest request and down to the lowest; going left,
    down to the lowest and up to the highest. *)
Theorem look_total (self : DiskScheduler) (direction : string)
    (lowest highest : Z) :
  least_of (requests self) lowest -> greatest_of (requests self) highest ->
  (going_right direction = true ->
   lowest < initial_position self <= highest ->
   total_of (look self direction) =
     (highest - initial_position self) + (highest - lowest)) /\
  (going_right direction = false ->
   lowest <= initial_position self < highest ->
   total_of (look self direction) =
     (initial_position self - lowest) + (highest - lowest)).
Proof.
  intros Hm HM. set (p := initial_position self).
  split; intros Hd [Hlo Hhi];
    rewrite total_of_look, look_order_shape, Hd; fold p;
    rewrite walk_total_app.
  - destruct (ahead_up_total (requests self) p) as (HA & _ & _). rewrite HA.
    rewrite (last_of_ascending _ highest).
    + rewrite (below_down_total _ p highest lowest Hm Hlo); [lia|].
      intros x Hx _. now apply HM.
    + apply sorted_ascending.
    + split; [apply in_ahead_up; split; [apply HM | exact Hhi]|].
      intros x Hx. apply in_ahead_up in Hx. now apply HM.
  - destruct (behind_down_total (requests self) p) as (HB & _ & _). rewrite HB.
    rewrite (last_of_descending _ lowest).
    + rewrite (above_up_total _ p lowest highest HM Hhi); [lia|].
      intros x Hx _. now apply Hm.
    + apply sorted_reverse_descending.
    + split; [apply in_behind_down; split; [apply Hm | exact Hlo]|].
      intros x Hx. apply in_behind_down in Hx. now apply Hm.
Qed.

Lemma look_total_witness :
  total_of (look scenario "right") = 299 /\
  total_of (look scenario "left") = 208.
Proof.
  assert (Hm : least_of (requests scenario) 14) by items.
  assert (HM : greatest_of (requests scenario) 183) by items.
  split.
  - apply (proj1 (look_total scenario "right" 14 183 Hm HM) eq_refl).
    cbn. lia.
  - apply (proj2 (look_total scenario "left" 14 183 Hm HM) eq_refl).
    cbn. lia.
Defined.

(** X15.  C-LOOK with requests on both sides of the head.  Going right, the head
    travels up to the highest request, jumps down to the lowest and travels
    up to the highest request below its starting point; going left, down to
    the lowest request, up to the highest and down to the lowest request
    above its starting point. *)
Theorem c_look_total (self : DiskScheduler) (direction : string)
    (lowest highest : Z) :
  least_of (requests self) lowest -> greatest_of (requests self) highest ->
  (going_right direction = true ->
   lowest < initial_position self <= highest ->
   forall b,
     greatest_of (filter (fun r => r <? initial_position self)
                         (requests self)) b ->
     total_of (c_look self direction) =
       (highest - initial_position self) + (highest - lowest) + (b - lowest)) /\
  (going_right direction = false ->
   lowest <= initial_position self < highest ->
   forall a,
     least_of (filter (fun r => r >? initial_position self)
                      (requests self)) a ->
     total_of (c_look self direction) =
       (initial_position self - lowest) + (highest - lowest) + (highest - a)).
Proof.
  intros Hm HM. set (p := initial_position self).
  split; intros Hd [Hlo Hhi] g Hg;
    pose proof (proj1 Hg) as Hgin; apply filter_In in Hgin;
    destruct Hgin as [Hgin Hgside];
    rewrite total_of_c_look, c_look_order_shape, Hd; fold p;
    rewrite walk_total_app.
  - apply Z.ltb_lt in Hgside.
    destruct (ahead_up_total (requests self) p) as (HA & _ & _). rewrite HA.
    rewrite (last_of_ascending _ highest).
    + rewrite (walk_jump_up _ highest lowest g).
      * pose proof (proj2 HM lowest (proj1 Hm)). lia.
      * apply sorted_ascending.
      * split; [apply in_below_up; split; [apply Hm | exact Hlo]|].
        intros x Hx. apply in_below_up in Hx. now apply Hm.
      * split; [now apply in_below_up|].
        intros x Hx. apply in_below_up in Hx. apply Hg.
        apply filter_In. now rewrite Z.ltb_lt.
    + apply sorted_ascending.
    + split; [apply in_ahead_up; split; [apply HM | exact Hhi]|].
      intros x Hx. apply in_ahead_up in Hx. now apply HM.
  - rewrite Z.gtb_ltb, Z.ltb_lt in Hgside.
    destruct (behind_down_total (requests self) p) as (HB & _ & _). rewrite HB.
    rewrite (last_of_descending _ lowest).
    + rewrite (walk_jump_down _ lowest highest g).
      * pose proof (proj2 HM lowest (proj1 Hm)). lia.
      * apply sorted_reverse_descending.
      * split; [apply in_above_down; split; [apply HM | exact Hhi]|].
        intros x Hx. apply in_above_down in Hx. now apply HM.
      * split; [now apply in_above_down|].
        intros x Hx. apply in_above_down in Hx. apply Hg.
        apply filter_In. now rewrite Z.gtb_ltb, Z.ltb_lt.
    + apply sorted_reverse_descending.
    + split; [apply in_behind_down; split; [apply Hm | exact Hlo]|].
      intros x Hx. apply in_behind_down in Hx. now apply Hm.
Qed.

Lemma c_look_total_witness :
  total_of (c_look scenario "right") = 322 /\
  total_of (c_look scenario "left") = 326.
Proof.
  assert (Hm : least_of (requests scenario) 14) by items.
  assert (HM : greatest_of (requests scenario) 183) by items.
  assert (Hr : 14 < initial_position scenario <= 183) by (cbn; lia).
  assert (Hl : 14 <= initial_position scenario < 183) by (cbn; lia).
  assert (Hb : greatest_of (filter (fun r => r <? initial_position scenario)
                                   (requests scenario)) 37) by items.
  assert (Ha : least_of (filter (fun r => r >? initial_position scenario)
                                (requests scenario)) 65) by items.
  split.
  - exact (proj1 (c_look_total scenario "right" 14 183 Hm HM) eq_refl Hr 37 Hb).
  - exact (proj2 (c_look_total scenario "left" 14 183 Hm HM) eq_refl Hl 65 Ha).
Defined.

(** ** The direction argument *)

Lemma lower_char_code (c : ascii) :
  N_of_ascii (Py.lower_char c) =
  if Py.is_upper c then (N_of_ascii c + 32)%N else N_of_ascii c.
Proof.
  unfold Py.lower_char. destruct (Py.is_upper c) eqn:E; [|reflexivity].
  apply N_ascii_embedding. rewrite is_upper_code in E. codes;
    try discriminate; lia.
Qed.

Lemma same_letter_lower (a b : ascii) :
  same_letter a b <-> Py.lower_char a = Py.lower_char b.
Proof.
  split.
  - intros [->|(Ha & Hb & Hab)]; [reflexivity|].
    apply code_inj. rewrite !lower_char_code.
    unfold letter in Ha, Hb. rewrite !is_lower_code, !is_upper_code in *.
    codes; try discriminate; lia.
  - intros H. apply (f_equal N_of_ascii) in H. rewrite !lower_char_code in H.
    unfold same_letter, letter. rewrite !is_lower_code, !is_upper_code in *.
    codes; try (left; apply code_inj; lia); right; repeat split; lia.
Qed.

Lemma same_ignoring_case_lower (s t : string) :
  same_ignoring_case s t <-> Py.lower s = Py.lower t.
Proof.
  split.
  - induction 1 as [|a b s t Hab _ IH]; [reflexivity|].
    simpl. apply same_letter_lower in Hab. now rewrite Hab, IH.
  - revert t; induction s as [|a s IH]; intros [|b t] H;
      try discriminate; [constructor|].
    simpl in H. injection H as Hab Hst.
    constructor; [now apply same_letter_lower | now apply IH].
Qed.

Lemma going_right_iff (direction : string) :
  going_right direction = true <-> same_ignoring_case direction "right".
Proof.
  unfold going_right. rewrite String.eqb_eq, same_ignoring_case_lower.
  reflexivity.
Qed.

(** The direction reaches the policies only through [going_right]. *)
Lemma direction_through_going_right (self : DiskScheduler) (d1 d2 : string) :
  going_right d1 = going_right d2 ->
  scan self d1 = scan self d2 /\ c_scan self d1 = c_scan self d2 /\
  look self d1 = look self d2 /\ c_look self d1 = c_look self d2.
Proof.
  intros H.
  unfold scan, scan_sequence, c_scan, c_scan_sequence, look, c_look.
  now rewrite H.
Qed.

(** X16.  On an ASCII direction string, the four directional policies behave as
    for "right" when the string is "right" up to the case of its letters,
    and as for "left" for every other string: no direction is refused. *)
Theorem direction_right_or_else_left (self : DiskScheduler)
    (direction : string) :
  isascii direction = true ->
  (same_ignoring_case direction "right" ->
   scan self direction = scan self "right" /\
   c_scan self direction = c_scan self "right" /\
   look self direction = look self "right" /\
   c_look self direction = c_look self "right") /\
  (~ same_ignoring_case direction "right" ->
   scan self direction = scan self "left" /\
   c_scan self direction = c_scan self "left" /\
   look self direction = look self "left" /\
   c_look self direction = c_look self "left").
Proof.
  intros _. split; intros H; apply direction_through_going_right.
  - apply going_right_iff in H. now rewrite H.
  - rewrite <- going_right_iff in H.
    now destruct (going_right direction).
Qed.

Lemma direction_right_or_else_left_witness :
  scan scenario "RiGhT" = scan scenario "right" /\
  look scenario "up" = look scenario "left".
Proof.
  split.
  - apply (proj1 (direction_right_or_else_left scenario "RiGhT" eq_refl)).
    apply going_right_iff. reflexivity.
  - apply (proj2 (direction_right_or_else_left scenario "up" eq_refl)).
    rewrite <- going_right_iff. discriminate.
Defined.

(** ** The dispatcher, continued *)

Section DispatcherFacts.

Context {float : Type} (true_div : Z -> Z -> float) (round2 : float -> float).

(** C8, as the code has it.  For a name the dispatcher accepts, [simulate]
    raises [OverflowError] when the service order is not empty and the
    total seek time divided by its length is too large for a float
    (2^1024 - 2^970 or more); otherwise it returns a record whose average
    seek time is the int 0 when the service order is empty and else that
    quotient rounded to two decimals.  With an empty request list it
    returns a record with an empty order, total 0, average 0 and no
    operation. *)
Theorem average_seek_time_value (self : DiskScheduler)
    (name direction : string) :
  In (Py.upper name) supported_names ->
  exists o,
    policy_outcome self direction o /\
    (average_overflows o = true ->
     order_of o <> [] /\
     (2 ^ 1024 - 2 ^ 970) * Z.of_nat (length (order_of o)) <= total_of o /\
     simulate true_div round2 self name direction = Raise OverflowError) /\
    (average_overflows o = false ->
     exists r,
       simulate true_div round2 self name direction = Ok r /\
       sequence r = order_of o /\ total_seek_time r = total_of o /\
       average_seek_time r =
         match sequence r with
         | [] => Int 0
         | _ :: _ =>
             Float (round2 (true_div (total_seek_time r)
                                     (Z.of_nat (length (sequence r)))))
         end) /\
    (requests self = [] ->
     exists r,
       simulate true_div round2 self name direction = Ok r /\
       sequence r = [] /\ total_seek_time r = 0 /\
       average_seek_time r = Int 0 /\ seek_operations r = []).
Proof.
  intros Hname.
  destruct (simulate_accepted true_div round2 self name direction Hname)
    as (o & Hpol & Hsim).
  exists o. split; [exact Hpol|]. rewrite Hsim.
  assert (Hnn : 0 <= total_of o).
  { rewrite (policy_outcome_for _ _ _ Hpol), total_of_outcome_for.
    apply walk_total_nonneg. }
  split; [|split].
  - intros Hov. rewrite Hov.
    unfold average_overflows, true_div_overflows in Hov.
    destruct (order_of o) as [|t seq]; [discriminate|].
    split; [discriminate|]. split; [|reflexivity].
    apply Z.leb_le in Hov.
    rewrite (Z.abs_eq (total_of o)) in Hov by exact Hnn.
    rewrite Z.abs_eq in Hov by apply Nat2Z.is_nonneg. exact Hov.
  - intros Hfits. rewrite Hfits. eexists. split; [reflexivity|].
    repeat split; reflexivity.
  - intros He. rewrite (policy_outcome_empty self direction o He Hpol).
    eexists. split; [reflexivity|]. repeat split; reflexivity.
Qed.

(** C9, as the code has it.  [simulate] raises [UnknownAlgorithm], whatever
    the scheduler holds, exactly when the upper-cased name is none of FCFS,
    SSTF, SCAN, C-SCAN, CSCAN, LOOK, C-LOOK, CLOOK; for an ASCII name that
    is exactly when the name is none of them up to the case of its letters.
    For an accepted name it returns a record with every field filled from
    the outcome of a policy, unless the division for the average overflows,
    and then it raises [OverflowError]; it raises nothing else. *)
Theorem simulate_unknown_algorithm (self : DiskScheduler)
    (name direction : string) :
  (~ In (Py.upper name) supported_names ->
   simulate true_div round2 self name direction =
   Raise (UnknownAlgorithm (Py.upper name))) /\
  (In (Py.upper name) supported_names ->
   exists o,
     policy_outcome self direction o /\
     ((average_overflows o = true /\
       simulate true_div round2 self name direction = Raise OverflowError) \/
      (average_overflows o = false /\
       exists r,
         simulate true_div round2 self name direction = Ok r /\
         algorithm r = Py.upper name /\
         sequence r = order_of o /\
         total_seek_time r = total_of o /\
         seek_operations r = operations_of o /\
         total_requests r = Z.of_nat (length (requests self)) /\
         initial_position' r = initial_position self))) /\
  (forall e,
     simulate true_div round2 self name direction = Raise e ->
     (e = UnknownAlgorithm (Py.upper name) /\
      ~ In (Py.upper name) supported_names) \/
     (e = OverflowError /\ In (Py.upper name) supported_names)) /\
  (recognised name -> In (Py.upper name) supported_names) /\
  (isascii name = true ->
   (In (Py.upper name) supported_names <-> recognised name)).
Proof.
  split; [apply simulate_refused|]. split; [|split; [|split]].
  - intros Hname.
    destruct (simulate_accepted true_div round2 self name direction Hname)
      as (o & Hpol & Hsim).
    exists o. split; [exact Hpol|]. rewrite Hsim.
    destruct (average_overflows o); [left; now split | right].
    split; [reflexivity|]. eexists. split; [reflexivity|]. cbn. tauto.
  - intros e He. destruct (accepted_dec name) as [Hname|Hname].
    + right. split; [|exact Hname].
      destruct (simulate_accepted true_div round2 self name direction Hname)
        as (o & _ & Hsim).
      rewrite Hsim in He. destruct (average_overflows o); [|discriminate].
      now injection He as <-.
    + left. split; [|exact Hname].
      rewrite (simulate_refused true_div round2 self name direction Hname)
        in He.
      now injection He as <-.
  - apply recognised_accepted.
  - intros Ha. split; [now apply accepted_ascii_recognised|].
    apply recognised_accepted.
Qed.

End DispatcherFacts.

Lemma average_seek_time_value_witness :
  exists r,
    simulate Quotient Rounded2 scenario "sstf" "right" = Ok r /\
    average_seek_time r = Float (Rounded2 (Quotient 236 8)).
Proof.
  assert (Hname : In (Py.upper "sstf") supported_names)
    by (vm_compute; tauto).
  destruct (average_seek_time_value Quotient Rounded2 scenario "sstf" "right"
              Hname) as (o & Hpol & _ & Hok & _).
  assert (Hfits : average_overflows o = false)
    by (destruct Hpol as [-> | [-> | [-> | [-> | [-> | ->]]]]];
        vm_compute; reflexivity).
  destruct (Hok Hfits) as (r & Hr & _).
  exists r. split; [exact Hr|].
  vm_compute in Hr. injection Hr as <-. reflexivity.
Defined.

(** C8, as stated, fails: the requests [0, 10^400] with the head at 0 on a
    disk of 10^401 tracks are valid, FCFS is supported, and the average
    10^400 / 2 has no float: [simulate] raises instead of returning one. *)
Lemma average_overflows_on_valid_input :
  let self := {| requests := [0; 10 ^ 400]; initial_position := 0;
                 disk_size := 10 ^ 401 |} in
  __init__ [0; 10 ^ 400] 0 (10 ^ 401) = Ok self /\
  recognised "FCFS" /\
  simulate Quotient Rounded2 self "FCFS" "right" = Raise OverflowError.
Proof.
  split; [vm_compute; reflexivity|]. split; [|vm_compute; reflexivity].
  exists "FCFS"%string. split; [simpl; tauto|].
  apply same_ignoring_case_upper. reflexivity.
Qed.

(** C9, as stated, fails.  A recognised name does not always give a record:
    on the valid input above SSTF raises [OverflowError].  And outside
    ASCII the upper-cased name decides, not its letters up to case: the name
    written with a long s (U+017F) followed by "can" runs SCAN. *)
Lemma recognised_name_without_record :
  let self := {| requests := [0; 10 ^ 400]; initial_position := 0;
                 disk_size := 10 ^ 401 |} in
  let long_s_can := (Py.bytes [197; 191]%N ++ "can")%string in
  __init__ [0; 10 ^ 400] 0 (10 ^ 401) = Ok self /\
  recognised "sstf" /\
  simulate Quotient Rounded2 self "sstf" "right" = Raise OverflowError /\
  Py.decode long_s_can = [383; 99; 97; 110]%N /\
  Py.upper long_s_can = "SCAN"%string /\
  ~ recognised long_s_can /\
  (exists r, simulate Quotient Rounded2 scenario long_s_can "right" = Ok r /\
             sequence r = order_of (scan scenario "right")).
Proof.
  intros self long_s_can.
  split; [vm_compute; reflexivity|]. split; [|split; [vm_compute; reflexivity|]].
  - exists "SSTF"%string. split; [simpl; tauto|].
    apply same_ignoring_case_upper. reflexivity.
  - split; [vm_compute; reflexivity|]. split; [vm_compute; reflexivity|].
    split.
    + intros H. apply recognised_isascii in H. discriminate H.
    + eexists. split; vm_compute; reflexivity.
Qed.

(** ** Empty results *)

Lemma length_sorted (l : list Z) : length (Py.sorted l) = length l.
Proof. apply Permutation_length, sorted_perm. Qed.

Lemma length_sorted_reverse (l : list Z) :
  length (Py.sorted_reverse l) = length l.
Proof. apply Permutation_length, sorted_reverse_perm. Qed.

Lemma sides_length (f g : Z -> bool) (l : list Z) :
  (forall x, g x = negb (f x)) ->
  (length (filter f (Py.sorted l)) + length (filter g (Py.sorted l)))%nat =
  length l.
Proof.
  intros Hfg. rewrite <- length_app, <- (length_sorted l).
  apply Permutation_length. now apply split_perm.
Qed.

(** No policy drops a request: an order is at least as long as the request
    list. *)
Lemma policy_order_length (self : DiskScheduler) (direction : string)
    (o : outcome) :
  policy_outcome self direction o ->
  (length (requests self) <= length (order_of o))%nat.
Proof.
  pose proof (sides_length (fun r => r >=? initial_position self)
                (fun r => r <? initial_position self) (requests self)
                (below_not_at_or_above (initial_position self))) as Hright.
  pose proof (sides_length (fun r => r <=? initial_position self)
                (fun r => r >? initial_position self) (requests self)
                (above_not_at_or_below (initial_position self))) as Hleft.
  intros [-> | [-> | [-> | [-> | [-> | ->]]]]].
  - now rewrite fcfs_outcome.
  - rewrite order_of_sstf.
    pose proof (sstf_loop_nearest_first (length (requests self))
                  (requests self) (initial_position self) (le_n _)) as Hnf.
    apply nearest_first_perm, Permutation_length in Hnf. lia.
  - rewrite order_of_scan, scan_sequence_shape.
    destruct (going_right direction);
      rewrite !length_app, ?length_sorted, ?length_sorted_reverse; lia.
  - rewrite order_of_c_scan, c_scan_sequence_shape.
    destruct (going_right direction);
      rewrite !length_app, ?length_sorted, ?length_sorted_reverse; lia.
  - rewrite look_order_shape.
    destruct (going_right direction);
      rewrite !length_app, ?length_sorted, ?length_sorted_reverse; lia.
  - rewrite c_look_order_shape.
    destruct (going_right direction);
      rewrite !length_app, ?length_sorted, ?length_sorted_reverse; lia.
Qed.

Section EmptyResults.

Context {float : Type} (true_div : Z -> Z -> float) (round2 : float -> float).

(** X17.  In a record returned by [simulate] the sequence is empty exactly when
    the request list is, and the average seek time is the int 0 exactly
    then: with at least one request the average is always a float. *)
Theorem empty_result_iff_no_request (self : DiskScheduler)
    (name direction : string) (r : simulation float) :
  simulate true_div round2 self name direction = Ok r ->
  (sequence r = [] <-> requests self = []) /\
  (average_seek_time r = Int 0 <-> requests self = []) /\
  (requests self <> [] ->
   average_seek_time r =
   Float (round2 (true_div (total_seek_time r)
                           (Z.of_nat (length (sequence r)))))).
Proof.
  intros H.
  assert (Hseq : sequence r = [] <-> requests self = []).
  { destruct (simulate_ok_inv _ _ _ _ _ _ H) as (o & Hpol & -> & _).
    split; intros He.
    - pose proof (policy_order_length _ _ _ Hpol) as Hlen.
      rewrite He in Hlen. destruct (requests self); [reflexivity|].
      simpl in Hlen. lia.
    - now rewrite (policy_outcome_empty _ _ _ He Hpol). }
  assert (Havg : average_seek_time r =
                 match sequence r with
                 | [] => Int 0
                 | _ :: _ =>
                     Float (round2 (true_div (total_seek_time r)
                                      (Z.of_nat (length (sequence r)))))
                 end).
  { destruct (accepted_dec name) as [Hname|Hname].
    - destruct (simulate_accepted true_div round2 self name direction Hname)
        as (o & _ & Hsim).
      rewrite Hsim in H. destruct (average_overflows o); [discriminate|].
      injection H as <-. reflexivity.
    - rewrite (simulate_refused true_div round2 self name direction Hname)
        in H.
      discriminate. }
  split; [exact Hseq|]. rewrite <- Hseq, Havg.
  destruct (sequence r); split.
  - split; reflexivity.
  - intros Hne. now destruct Hne.
  - split; discriminate.
  - reflexivity.
Qed.

End EmptyResults.

Lemma empty_result_iff_no_request_witness :
  exists r,
    simulate Quotient Rounded2 scenario "look" "left" = Ok r /\
    average_seek_time r = Float (Rounded2 (Quotient 208 8)).
Proof.
  assert (H : exists r,
             simulate Quotient Rounded2 scenario "look" "left" = Ok r /\
             total_seek_time r = 208 /\ length (sequence r) = 8%nat)
    by (eexists; repeat split; reflexivity).
  destruct H as (r & Hr & Ht & Hl). exists r. split; [exact Hr|].
  destruct (empty_result_iff_no_request Quotient Rounded2 scenario
              "look" "left" r Hr) as (_ & _ & Havg).
  rewrite Havg by discriminate. now rewrite Ht, Hl.
Defined.
